(** * media_api: file lifecycle between the GridFS bucket and the record collection

    A shallow embedding of [app/main.py], [app/models/file.py] and
    [app/database.py].  The request handlers are functions over an explicit
    [World] (the GridFS bucket, the [gridfs_files] collection and the log of
    mutating store calls).  Python [str] values are lists of Unicode code
    points. *)

From Stdlib Require Import NArith ZArith String Ascii DecimalString Sorted.
From stdpp Require Import list gmap sorting.

Local Open Scope N_scope.

(** ** Python strings *)

(** A [str] is a sequence of code points. *)
Abbreviation str := (list N).

(** String literals of the source (all of them are ASCII). *)
Definition u (s : string) : str := N_of_ascii <$> list_ascii_of_string s.

(** Truthiness of [Optional[str]]: [None] and [""] are falsy. *)
Definition truthy (o : option str) : option str :=
  match o with
  | Some (c :: s) => Some (c :: s)
  | _ => None
  end.

(** [a or b] on strings. *)
Definition str_or (a b : str) : str :=
  match a with [] => b | _ => a end.

(** [s.startswith(p)] *)
Fixpoint startswith (s p : str) : bool :=
  match p, s with
  | [], _ => true
  | a :: p', c :: s' => (a =? c) && startswith s' p'
  | _ :: _, [] => false
  end.

(** [s.startswith((p1, p2, ...))] *)
Definition startswith_any (s : str) (ps : list str) : bool :=
  existsb (startswith s) ps.

(** [str.isspace] on one code point: the white space of [str.strip()]. *)
Definition is_space (c : N) : bool :=
  ((9 <=? c) && (c <=? 13)) || ((28 <=? c) && (c <=? 32))
  || (c =? 133) || (c =? 160) || (c =? 5760)
  || ((8192 <=? c) && (c <=? 8202))
  || (c =? 8232) || (c =? 8233) || (c =? 8239) || (c =? 8287) || (c =? 12288).

Fixpoint lstrip (s : str) : str :=
  match s with
  | c :: s' => if is_space c then lstrip s' else s
  | [] => []
  end.

Definition rstrip (s : str) : str := rev (lstrip (rev s)).

(** [s.strip()] *)
Definition strip (s : str) : str := rstrip (lstrip s).

(** [s.split(sep)] for a separator of one character. *)
Fixpoint split (sep : N) (s : str) : list str :=
  match s with
  | [] => [[]]
  | c :: s' =>
      if c =? sep then [] :: split sep s'
      else match split sep s' with
           | h :: t => (c :: h) :: t
           | [] => [[c]]
           end
  end.

Definition comma : N := 44.

(** [[tag.strip() for tag in tags.split(",") if tag.strip()]] *)
Definition parse_tags (tags : str) : list str :=
  omap (fun tag => match strip tag with [] => None | t => Some t end)
       (split comma tags).

Definition is_ascii (c : N) : bool := c <? 128.

Definition ascii_lower (c : N) : N :=
  if (65 <=? c) && (c <=? 90) then c + 32 else c.

Definition str_eqb (a b : str) : bool := bool_decide (a = b).

(** [str(n)] for a non-negative integer. *)
Definition str_of_N (n : N) : str := u (NilEmpty.string_of_uint (N.to_uint n)).

(** ** [filename.encode(...)] and [urllib.parse.quote] *)

(** [s.encode('ascii')]: [None] is [UnicodeEncodeError]. *)
Definition encode_ascii (s : str) : option (list N) :=
  if forallb is_ascii s then Some s else None.

(** [bytes.decode('ascii')] of bytes that came out of [encode_ascii]. *)
Definition decode_ascii (b : list N) : str := b.

(** UTF-8 bytes of one code point; surrogates and values beyond U+10FFFF
    cannot be encoded ([UnicodeEncodeError]). *)
Definition utf8_char (c : N) : option (list N) :=
  if c <? 0x80 then Some [c]
  else if c <? 0x800 then Some [0xC0 + c / 64; 0x80 + c mod 64]
  else if c <? 0x10000 then
    if (0xD800 <=? c) && (c <=? 0xDFFF) then None
    else Some [0xE0 + c / 4096; 0x80 + (c / 64) mod 64; 0x80 + c mod 64]
  else if c <? 0x110000 then
    Some [0xF0 + c / 262144; 0x80 + (c / 4096) mod 64;
          0x80 + (c / 64) mod 64; 0x80 + c mod 64]
  else None.

(** [s.encode('utf-8')] *)
Fixpoint encode_utf8 (s : str) : option (list N) :=
  match s with
  | [] => Some []
  | c :: s' =>
      match utf8_char c, encode_utf8 s' with
      | Some b, Some bs => Some (b ++ bs)
      | _, _ => None
      end
  end.

Definition is_alnum (c : N) : bool :=
  ((48 <=? c) && (c <=? 57)) || ((65 <=? c) && (c <=? 90))
  || ((97 <=? c) && (c <=? 122)).

(** The characters [quote] never escapes: letters, digits and [_.-~]. *)
Definition always_safe (b : N) : bool :=
  is_alnum b || (b =? 95) || (b =? 46) || (b =? 45) || (b =? 126).

Definition hex_digit (d : N) : N := if d <? 10 then 48 + d else 55 + d.

Definition percent : N := 37.
Definition slash : N := 47.

(** [quote(bs)] with its default [safe='/']. *)
Definition quote_byte (b : N) : str :=
  if always_safe b || (b =? slash) then [b]
  else [percent; hex_digit (b / 16); hex_digit (b mod 16)].

Definition quote (bs : list N) : str := bs ≫= quote_byte.

(** ** The record store's [$regex] operator

    [list_files] hands the store the pattern ["^" + content_type] with
    [$options: "i"].  The store compiles the pattern as a Perl-compatible
    regular expression.  Modelled here is the fragment made of literal
    characters, [.], a backslash before a character that is not a letter or a
    digit, and the quantifiers [*], [+] and [?]; [compile] answers [None] on
    every other pattern (groups, classes, alternation, non-ASCII text), and
    the search answers [None] on a subject that is not ASCII, where case
    folding is a matter of Unicode tables. *)
Module Regex.

Inductive atom :=
| Lit (c : N)      (* this character *)
| AnyChar.         (* [.]: every character but a line feed *)

Inductive quant := Once | Opt | Star | Plus.

Inductive token :=
| TAtom (a : atom)
| TQuant (q : quant).

Definition t := list (atom * quant).

Definition backslash : N := 92.

(** Characters with a meaning of their own outside a class. *)
Definition is_meta (c : N) : bool :=
  bool_decide (c ∈ u "\^$.[]|()?*+{}").

(** [esc] tells that the previous character was an unescaped backslash. *)
Fixpoint tokens (esc : bool) (s : str) : option (list token) :=
  match s with
  | [] => if esc then None else Some []
  | c :: s' =>
      if negb (is_ascii c) then None
      else if esc then
        if is_alnum c then None
        else cons (TAtom (Lit c)) <$> tokens false s'
      else if c =? backslash then tokens true s'
      else if c =? 46 then cons (TAtom AnyChar) <$> tokens false s'
      else if c =? 42 then cons (TQuant Star) <$> tokens false s'
      else if c =? 43 then cons (TQuant Plus) <$> tokens false s'
      else if c =? 63 then cons (TQuant Opt) <$> tokens false s'
      else if is_meta c then None
      else cons (TAtom (Lit c)) <$> tokens false s'
  end.

(** An atom takes at most one quantifier: a second one (lazy and possessive
    forms) is outside the fragment, a leading one is an error. *)
Fixpoint build (ts : list token) : option t :=
  match ts with
  | [] => Some []
  | TAtom a :: TQuant q :: ts' =>
      match ts' with
      | TQuant _ :: _ => None
      | _ => cons (a, q) <$> build ts'
      end
  | TAtom a :: ts' => cons (a, Once) <$> build ts'
  | TQuant _ :: _ => None
  end.

Definition compile (body : str) : option t := tokens false body ≫= build.

Definition atom_ok (caseless : bool) (a : atom) (c : N) : bool :=
  match a with
  | Lit x => if caseless then ascii_lower x =? ascii_lower c else x =? c
  | AnyChar => negb (c =? 10)
  end.

(** Does some prefix of [s] match [re]?  (The search is anchored at the
    start of the subject and free at its end.) *)
Fixpoint match_here (caseless : bool) (re : t) (s : str) : bool :=
  match re with
  | [] => true
  | (a, Once) :: re' =>
      match s with
      | c :: s' => atom_ok caseless a c && match_here caseless re' s'
      | [] => false
      end
  | (a, Opt) :: re' =>
      match_here caseless re' s
      || match s with
         | c :: s' => atom_ok caseless a c && match_here caseless re' s'
         | [] => false
         end
  | (a, Star) :: re' =>
      (fix star (s : str) : bool :=
         match_here caseless re' s
         || match s with
            | c :: s' => atom_ok caseless a c && star s'
            | [] => false
            end) s
  | (a, Plus) :: re' =>
      match s with
      | c :: s' =>
          atom_ok caseless a c
          && (fix star (s : str) : bool :=
                match_here caseless re' s
                || match s with
                   | c :: s' => atom_ok caseless a c && star s'
                   | [] => false
                   end) s'
      | [] => false
      end
  end.

(** [{"$regex": pattern, "$options": options}] applied to a string field.
    Only anchored patterns are modelled. *)
Definition search (pattern options subject : str) : option bool :=
  match pattern with
  | 94 :: body =>
      if forallb is_ascii subject then
        re ← compile body;
        Some (match_here (bool_decide (105 ∈ options)) re subject)
      else None
  | _ => None
  end.

End Regex.

(** The property the listing filter is meant to decide: [s] starts with [p],
    letters compared without regard to case. *)
Fixpoint istartswith (s p : str) : bool :=
  match p, s with
  | [], _ => true
  | a :: p', c :: s' => (ascii_lower a =? ascii_lower c) && istartswith s' p'
  | _ :: _, [] => false
  end.

(** ** Data model ([app/models/file.py] and the request and response models) *)

Inductive FileStatus := ACTIVE | FLAGGED | DELETED | PROCESSING | PENDING_REVIEW.

#[global] Instance FileStatus_eq_dec : EqDecision FileStatus.
Proof. solve_decision. Defined.

(** The [str] value of each member of the enumeration. *)
Definition FileStatus_value (s : FileStatus) : str :=
  match s with
  | ACTIVE => u "active"
  | FLAGGED => u "flagged"
  | DELETED => u "deleted"
  | PROCESSING => u "processing"
  | PENDING_REVIEW => u "pending_review"
  end.

(** [FileStatus(v)]: the member whose value is [v], if any. *)
Definition FileStatus_of_value (v : str) : option FileStatus :=
  List.find (fun s => str_eqb (FileStatus_value s) v)
            [ACTIVE; FLAGGED; DELETED; PROCESSING; PENDING_REVIEW].

(** Values kept in a [metadata] dictionary. *)
Inductive json :=
| JNull
| JStr (s : str)
| JInt (n : Z).

(** [Optional[str]] as a dictionary value. *)
Definition json_of_opt_str (o : option str) : json :=
  match o with Some s => JStr s | None => JNull end.

(** A document of the [gridfs_files] collection.  Its [id] is the key the
    collection files it under, see [World]. *)
Module GridFSFile.
Record t := mk {
  filename : str;
  content_type : str;
  upload_date : N;
  file_id : str;
  owner_id : option str;
  status : FileStatus;
  file_size : option N;
  tags : list str;
  description : option str;
  metadata : option (gmap str json);
}.

Definition set_status (v : FileStatus) (d : t) : t :=
  mk (filename d) (content_type d) (upload_date d) (file_id d) (owner_id d)
     v (file_size d) (tags d) (description d) (metadata d).
Definition set_tags (v : list str) (d : t) : t :=
  mk (filename d) (content_type d) (upload_date d) (file_id d) (owner_id d)
     (status d) (file_size d) v (description d) (metadata d).
Definition set_description (v : option str) (d : t) : t :=
  mk (filename d) (content_type d) (upload_date d) (file_id d) (owner_id d)
     (status d) (file_size d) (tags d) v (metadata d).
End GridFSFile.

(** A file of the GridFS bucket: its [files] document and its chunks. *)
Module GridOut.
Record t := mk {
  filename : str;
  length : N;
  metadata : option (gmap str json);
  chunks : list (list N);
}.
End GridOut.

Module FileUploadResponse.
Record t := mk {
  file_id : str;
  filename : str;
  file_size : N;
  status : str;
  owner_id : option str;
}.
End FileUploadResponse.

Module FileListResponse.
Record t := mk {
  id : str;
  filename : str;
  content_type : option str;
  upload_date : N;
  file_size : option N;
  status : FileStatus;
  owner_id : option str;
  tags : list str;
  description : option str;
}.
End FileListResponse.

Module FileUpdateRequest.
Record t := mk {
  status : option FileStatus;
  tags : option (list str);
  description : option str;
}.
End FileUpdateRequest.

(** A member of the JSON body of [PUT /files/{id}] before validation: left
    out, [null], or a value. *)
Inductive field (A : Type) :=
| Absent
| Null
| Given (a : A).
Arguments Absent {A}.
Arguments Null {A}.
Arguments Given {A} a.

(** The body of [PUT /files/{id}] as sent. *)
Module UpdateBody.
Record t := mk {
  status : field str;
  tags : field (list str);
  description : field str;
}.
End UpdateBody.

(** The multipart file of [POST /upload]. *)
Module UploadFile.
Record t := mk {
  content_type : option str;
  filename : option str;
  file : list N;
}.
End UploadFile.

(** What a handler answers: its value, an [HTTPException], or the framework's
    rejection of the request parameters (status 422), which happens before the
    handler body runs. *)
Inductive result (A : Type) :=
| Ok (a : A)
| HTTPException (status_code : N) (detail : str)
| RequestValidationError.
Arguments Ok {A} a.
Arguments HTTPException {A} status_code detail.
Arguments RequestValidationError {A}.

Definition status_code {A} (r : result A) : N :=
  match r with
  | Ok _ => 200
  | HTTPException c _ => c
  | RequestValidationError => 422
  end.

(** ** Request validation *)

(** [Query(default, ge=..., le=...)] on an integer parameter: the default when
    the parameter is left out, [None] (a validation error) when the value
    breaks a bound. *)
Definition Query_int (default : Z) (ge : Z) (le : option Z) (raw : option Z)
  : option Z :=
  match raw with
  | None => Some default
  | Some v =>
      if (ge <=? v)%Z && (match le with Some b => (v <=? b)%Z | None => true end)
      then Some v else None
  end.

(** [Optional[FileStatus]] as a query parameter. *)
Definition Query_status (raw : option str) : option (option FileStatus) :=
  match raw with
  | None => Some None
  | Some v => Some <$> FileStatus_of_value v
  end.

(** [Optional[X] = None] in a body model: a member left out takes the default
    [None], and [null] validates to [None] as well. *)
Definition validate_field {A B} (f : A -> option B) (x : field A)
  : option (option B) :=
  match x with
  | Absent | Null => Some None
  | Given a => Some <$> f a
  end.

(** Validation of the body into a [FileUpdateRequest]. *)
Definition FileUpdateRequest_validate (b : UpdateBody.t)
  : option FileUpdateRequest.t :=
  s ← validate_field FileStatus_of_value (UpdateBody.status b);
  t ← validate_field Some (UpdateBody.tags b);
  d ← validate_field Some (UpdateBody.description b);
  Some (FileUpdateRequest.mk s t d).

(** The dictionary [filter_query] of [list_files].  The handler sets at most
    these four keys, so it is a record with one optional component per key. *)
Module FilterQuery.
Record t := mk {
  owner_id : option str;              (* {"owner_id": v} *)
  status : option FileStatus;         (* {"status": v} *)
  content_type : option (str * str);  (* {"$regex": p, "$options": o} *)
  tags : option (list str);           (* {"$in": [...]} *)
}.
End FilterQuery.

(** One condition of a query on one document, the regular expression already
    compiled.  A string field is equal to a queried string when it is set and
    the same; an array field satisfies [$in] when one of its elements is in
    the list. *)
Definition doc_matches (q : FilterQuery.t) (re : option (Regex.t * bool))
    (d : GridFSFile.t) : option bool :=
  c ← match re with
      | None => Some true
      | Some (r, caseless) =>
          if forallb is_ascii (GridFSFile.content_type d)
          then Some (Regex.match_here caseless r (GridFSFile.content_type d))
          else None
      end;
  Some
    (match FilterQuery.owner_id q with
     | Some o => bool_decide (GridFSFile.owner_id d = Some o)
     | None => true
     end
     && match FilterQuery.status q with
        | Some s => bool_decide (GridFSFile.status d = s)
        | None => true
        end
     && c
     && match FilterQuery.tags q with
        | Some l => existsb (fun t => bool_decide (t ∈ l)) (GridFSFile.tags d)
        | None => true
        end).

(** The documents of a collection that a query selects, each with its id, in
    the order of the collection.  A slot of the collection is [None] once its
    document is deleted. *)
Fixpoint find_from (q : FilterQuery.t) (re : option (Regex.t * bool)) (i : nat)
    (c : list (option GridFSFile.t)) : option (list (nat * GridFSFile.t)) :=
  match c with
  | [] => Some []
  | None :: c' => find_from q re (S i) c'
  | Some d :: c' =>
      m ← doc_matches q re d;
      rest ← find_from q re (S i) c';
      Some (if m : bool then (i, d) :: rest else rest)
  end.

(** The [$regex] condition of a query, compiled once: only patterns anchored
    at the start are modelled, and the option [i] alone is looked at. *)
Definition compile_condition (cond : option (str * str))
  : option (option (Regex.t * bool)) :=
  match cond with
  | None => Some None
  | Some (94 :: body, options) =>
      r ← Regex.compile body; Some (Some (r, bool_decide (105 ∈ options)))
  | Some _ => None
  end.

(** [GridFSFile.find(filter_query)]: [None] when the pattern or a subject is
    outside the modelled fragment of regular expressions. *)
Definition find (q : FilterQuery.t) (c : list (option GridFSFile.t))
  : option (list (nat * GridFSFile.t)) :=
  re ← compile_condition (FilterQuery.content_type q);
  find_from q re 0 c.

(** [cursor.skip(n)] and [cursor.limit(n)]; a limit of 0 is no limit. *)
Definition cursor_skip {A} (n : Z) (l : list A) : list A := drop (Z.to_nat n) l.
Definition cursor_limit {A} (n : Z) (l : list A) : list A :=
  if (n =? 0)%Z then l else take (Z.to_nat n) l.

(** [GridFSFile.find_one({"file_id": file_id})]: the first document with this
    [file_id], and its id. *)
Fixpoint find_one_from (file_id : str) (i : nat)
    (c : list (option GridFSFile.t)) : option (nat * GridFSFile.t) :=
  match c with
  | [] => None
  | Some d :: c' =>
      if str_eqb (GridFSFile.file_id d) file_id then Some (i, d)
      else find_one_from file_id (S i) c'
  | None :: c' => find_one_from file_id (S i) c'
  end.

Definition find_one (file_id : str) (c : list (option GridFSFile.t))
  : option (nat * GridFSFile.t) := find_one_from file_id 0 c.

(** The [file_id]s of the documents of a collection. *)
Definition file_ids (c : list (option GridFSFile.t)) : list str :=
  GridFSFile.file_id <$> omap id c.

(** The chunks GridFS cuts a stream into: [size] bytes each, the last one
    possibly shorter. *)
Fixpoint chunks_aux (size : N) (cur : list N) (room : N) (l : list N)
  : list (list N) :=
  match l with
  | [] => match cur with [] => [] | _ => [rev cur] end
  | b :: l' =>
      if room =? 0 then rev cur :: chunks_aux size [b] (size - 1) l'
      else chunks_aux size (b :: cur) (room - 1) l'
  end.

Definition chunks_of (size : N) (l : list N) : list (list N) :=
  chunks_aux size [] size l.

(** The default chunk size of a bucket, 255 KiB. *)
Definition DEFAULT_CHUNK_SIZE : N := 261120.

(** ** [get_file]: the [Content-Disposition] header

    [None] is the [UnicodeEncodeError] of the second [encode], which no
    handler catches. *)
Definition content_disposition (filename : str) : option str :=
  match encode_ascii filename with
  | Some safe_filename =>
      Some (u "attachment; filename=" ++ decode_ascii safe_filename)
  | None =>
      encoded ← encode_utf8 filename;
      Some (u "attachment; filename*=UTF-8''" ++ quote encoded)
  end.

(** Text a header can carry: every character is below U+0100. *)
Definition is_latin1 (c : N) : bool := c <? 256.

(** [StreamingResponse(..., media_type=content_type)] as it builds its
    headers.  [None] (a stored null) is no media type and no [content-type]
    header; a string is encoded as Latin-1 for that header, which raises
    [UnicodeEncodeError] on any other character; a value of another type has
    no [startswith], which raises [AttributeError]. *)
Definition media_type_ok (content_type : json) : bool :=
  match content_type with
  | JNull => true
  | JStr s => forallb is_latin1 s
  | JInt _ => false
  end.

(** [file_doc.metadata.get("content_type", "video/mp4") if file_doc.metadata
    else "video/mp4"]: the default stands in for metadata that are missing or
    empty and for a missing key, not for a key with another value. *)
Definition stored_content_type (file_doc : GridOut.t) : json :=
  match GridOut.metadata file_doc with
  | Some m =>
      if bool_decide (m = ∅) then JStr (u "video/mp4")
      else default (JStr (u "video/mp4")) (m !! u "content_type")
  | None => JStr (u "video/mp4")
  end.

(** The generator [stream_file]: chunks are yielded until the stored file is
    exhausted, an empty chunk is read, or [request.is_disconnected()] (whose
    successive answers are [disconnected]) is true after a chunk. *)
Fixpoint stream_file (chunks : list (list N)) (disconnected : list bool)
  : list (list N) :=
  match chunks with
  | [] => []
  | [] :: _ => []
  | chunk :: rest =>
      chunk :: match disconnected with
               | true :: _ => []
               | false :: ds => stream_file rest ds
               | [] => stream_file rest []
               end
  end.

(** What [open_download_stream] under [asyncio.wait_for] comes to. *)
Inductive open_outcome :=
| Opened
| TimedOut
| Raised (e : str).

Module StreamingResponse.
Record t := mk {
  body : list (list N);
  media_type : json;
  headers : list (str * str);
}.
End StreamingResponse.

(** [headers[name]] *)
Definition header (name : str) (hs : list (str * str)) : option str :=
  snd <$> List.find (fun kv => str_eqb (fst kv) name) hs.

(** [FileListResponse(id=str(file_doc.id), ...)], the id already a string. *)
Definition to_response (id : str) (d : GridFSFile.t) : FileListResponse.t :=
  FileListResponse.mk id (GridFSFile.filename d)
    (Some (GridFSFile.content_type d)) (GridFSFile.upload_date d)
    (GridFSFile.file_size d) (GridFSFile.status d) (GridFSFile.owner_id d)
    (GridFSFile.tags d) (GridFSFile.description d).

(** The [$set] document [update_file] builds: a field of the request that is
    not [None] is a key of [update_dict]. *)
Definition update_dict (r : FileUpdateRequest.t)
  : option FileStatus * option (list str) * option str :=
  (FileUpdateRequest.status r, FileUpdateRequest.tags r,
   FileUpdateRequest.description r).

(** [{"$set": update_dict}] on one document. *)
Definition apply_set (upd : option FileStatus * option (list str) * option str)
    (d : GridFSFile.t) : GridFSFile.t :=
  let '(s, t, de) := upd in
  let d1 := match s with Some v => GridFSFile.set_status v d | None => d end in
  let d2 := match t with Some v => GridFSFile.set_tags v d1 | None => d1 end in
  match de with Some v => GridFSFile.set_description (Some v) d2 | None => d2 end.

(** The query [list_files] builds from its parameters. *)
Definition build_filter_query (owner_id : option str)
    (status : option FileStatus) (content_type tags : option str)
  : FilterQuery.t :=
  FilterQuery.mk
    (truthy owner_id)
    status
    (match truthy content_type with
     | Some ct => Some (u "^" ++ ct, u "i")
     | None => None
     end)
    (match truthy tags with
     | Some ts =>
         match parse_tags ts with
         | [] => None
         | tag_list => Some tag_list
         end
     | None => None
     end).

(** ** The stores and the handlers ([app/main.py]) *)

Section Handlers.

(** [bson.ObjectId]: the identifiers of the bucket's files.
    [ObjectId_of_str s] is [ObjectId(s)], with [None] for [InvalidId];
    [str_of_ObjectId] is [str(oid)]; [str_of_id] is [str(doc.id)] for the id
    of a document of the collection. *)
Context {ObjectId : Type} `{Countable ObjectId}.
Variable ObjectId_of_str : str -> option ObjectId.
Variable str_of_ObjectId : ObjectId -> str.
Variable str_of_id : nat -> str.

(** The store calls that change a store, as the handlers issue them. *)
Inductive call :=
| UploadFromStream (oid : ObjectId)
| BucketDelete (oid : ObjectId) (raised : bool)
| DocInsert (id : nat)
| DocUpdate (id : nat)
| DocDelete (id : nat).

(** [gridfs_bucket], the [gridfs_files] collection (a document's id is its
    position, and a deleted document leaves its slot empty, so an id is
    never used twice), and the calls issued so far, oldest first. *)
Record World := mkWorld {
  bucket : gmap ObjectId GridOut.t;
  collection : list (option GridFSFile.t);
  calls : list call;
}.

Definition ObjectId_is_valid (file_id : str) : bool :=
  bool_decide (is_Some (ObjectId_of_str file_id)).

(** [gridfs_bucket.upload_from_stream(filename, source, metadata=...)] under
    the identifier [oid] the driver draws for the new file. *)
Definition upload_from_stream (oid : ObjectId) (filename : str)
    (source : list N) (metadata : gmap str json) (w : World) : World :=
  mkWorld
    (<[oid := GridOut.mk filename (N.of_nat (length source)) (Some metadata)
                (chunks_of DEFAULT_CHUNK_SIZE source)]> (bucket w))
    (collection w)
    (calls w ++ [UploadFromStream oid]).

(** [gridfs_bucket.delete(oid)].  It raises ([true]) when the bucket has no
    such file ([NoFile]) or when the store fails ([fault]); the bucket is
    then as before. *)
Definition bucket_delete (oid : ObjectId) (fault : bool) (w : World)
  : bool * World :=
  match fault, bucket w !! oid with
  | false, Some _ =>
      (false, mkWorld (delete oid (bucket w)) (collection w)
                (calls w ++ [BucketDelete oid false]))
  | _, _ =>
      (true, mkWorld (bucket w) (collection w)
               (calls w ++ [BucketDelete oid true]))
  end.

(** [doc.insert()]: the new document takes the next id. *)
Definition doc_insert (d : GridFSFile.t) (w : World) : nat * World :=
  (length (collection w),
   mkWorld (bucket w) (collection w ++ [Some d])
     (calls w ++ [DocInsert (length (collection w))])).

(** [doc.update({"$set": ...})] on the document with this id. *)
Definition doc_update (id : nat) (f : GridFSFile.t -> GridFSFile.t)
    (w : World) : World :=
  mkWorld (bucket w)
    (match collection w !! id with
     | Some (Some d) => <[id := Some (f d)]> (collection w)
     | _ => collection w
     end)
    (calls w ++ [DocUpdate id]).

(** [doc.delete()] *)
Definition doc_delete (id : nat) (w : World) : World :=
  mkWorld (bucket w) (<[id := None]> (collection w))
    (calls w ++ [DocDelete id]).

(** [POST /upload].  [new_oid] is the identifier drawn for the stored file
    and [now] the clock reading of [datetime.now]. *)
Definition upload_file (file : UploadFile.t)
    (owner_id tags description : option str)
    (new_oid : ObjectId) (now : N) (w : World)
  : result FileUploadResponse.t * World :=
  match truthy (UploadFile.content_type file) with
  | None => (HTTPException 400 (u "Only images and videos are allowed"), w)
  | Some content_type =>
      if negb (startswith_any content_type [u "image/"; u "video/"])
      then (HTTPException 400 (u "Only images and videos are allowed"), w)
      else
        let filename :=
          match truthy (UploadFile.filename file) with
          | Some f => f
          | None => u "unnamed_file"
          end in
        (* the whole payload is read to measure it, then the stream is
           rewound, so the bucket receives the payload from its start *)
        let file_content := UploadFile.file file in
        let file_size := N.of_nat (length file_content) in
        let tag_list :=
          match truthy tags with
          | Some ts => parse_tags ts
          | None => []
          end in
        let file_id := new_oid in
        let w1 :=
          upload_from_stream file_id filename file_content
            (list_to_map
               [(u "content_type", JStr content_type);
                (u "original_name", JStr filename);
                (u "owner_id", json_of_opt_str owner_id);
                (u "file_size", JInt (Z.of_N file_size))]) w in
        let gridfs_file :=
          GridFSFile.mk filename content_type now (str_of_ObjectId file_id)
            owner_id ACTIVE (Some file_size) tag_list description
            (Some (list_to_map
                     [(u "uploaded_by", JStr (u "api"));
                      (u "source", JStr (u "upload_endpoint"))])) in
        let '(_, w2) := doc_insert gridfs_file w1 in
        (Ok (FileUploadResponse.mk (str_of_ObjectId file_id) filename
               file_size (FileStatus_value (GridFSFile.status gridfs_file))
               owner_id),
         w2)
  end.

(** [GET /files/{file_id}].  [opening] is what opening the download stream
    comes to and [disconnected] the successive answers of
    [request.is_disconnected()]; status 500 is the framework's answer to an
    uncaught exception, of the second [encode] or of the construction of the
    response. *)
Definition get_file (file_id : str) (opening : open_outcome)
    (disconnected : list bool) (w : World) : result StreamingResponse.t :=
  match ObjectId_of_str file_id with
  | None => HTTPException 400 (u "Invalid file ID")
  | Some oid =>
      match bucket w !! oid with
      | None => HTTPException 404 (u "File Not Found in GridFS")
      | Some file_doc =>
          let filename := str_or (GridOut.filename file_doc) (u "file") in
          let content_type := stored_content_type file_doc in
          let file_size := GridOut.length file_doc in
          match opening with
          | TimedOut =>
              HTTPException 504 (u "Timeout File too large or server busy")
          | Raised e => HTTPException 400 (u "Stream error: " ++ e)
          | Opened =>
              match content_disposition filename with
              | None => HTTPException 500 (u "Internal Server Error")
              | Some cd =>
                  if media_type_ok content_type then
                    Ok (StreamingResponse.mk
                          (stream_file (GridOut.chunks file_doc) disconnected)
                          content_type
                          [(u "Content-Disposition", cd);
                           (u "Accept-Ranges", u "bytes");
                           (u "Content-Length", str_of_N file_size);
                           (u "Cache-Control", u "public, max-age=3600")])
                  else HTTPException 500 (u "Internal Server Error")
              end
          end
      end
  end.

(** [GET /files/{file_id}/info] *)
Definition get_file_info (file_id : str) (w : World)
  : result FileListResponse.t :=
  if negb (ObjectId_is_valid file_id)
  then HTTPException 400 (u "Invalid file ID")
  else
    match find_one file_id (collection w) with
    | None => HTTPException 404 (u "File not found")
    | Some (id, file_doc) => Ok (to_response (str_of_id id) file_doc)
    end.

(** [PUT /files/{file_id}].  The body is validated into a
    [FileUpdateRequest] before the handler runs.  When [update_dict] has a
    key, the [$set] is written and the handler then calls
    [file_doc.refresh()]: a [Document] has no such method, the call raises
    [AttributeError], and the framework answers status 500. *)
Definition update_file (file_id : str) (body : UpdateBody.t) (w : World)
  : result FileListResponse.t * World :=
  match FileUpdateRequest_validate body with
  | None => (RequestValidationError, w)
  | Some update_data =>
      if negb (ObjectId_is_valid file_id)
      then (HTTPException 400 (u "Invalid file ID"), w)
      else
        match find_one file_id (collection w) with
        | None => (HTTPException 404 (u "File not found"), w)
        | Some (id, file_doc) =>
            match update_dict update_data with
            | (None, None, None) =>
                (Ok (to_response (str_of_id id) file_doc), w)
            | upd =>
                let w1 := doc_update id (apply_set upd) w in
                (HTTPException 500 (u "Internal Server Error"), w1)
            end
        end
  end.

(** [DELETE /files/{file_id}?permanent=...].  [fault] tells that the bucket
    fails on this request.  The answer is the JSON object of the source. *)
Definition delete_file (file_id : str) (permanent : bool) (fault : bool)
    (w : World) : result (list (str * str)) * World :=
  match ObjectId_of_str file_id with
  | None => (HTTPException 400 (u "Invalid file ID"), w)
  | Some oid =>
      match find_one file_id (collection w) with
      | None => (HTTPException 404 (u "File not found"), w)
      | Some (id, file_doc) =>
          if permanent then
            (* the exception of the bucket is caught and printed *)
            let '(_, w1) := bucket_delete oid fault w in
            let w2 := doc_delete id w1 in
            (Ok [(u "message", u "File permanently deleted");
                 (u "file_id", file_id)], w2)
          else
            let w1 := doc_update id (GridFSFile.set_status DELETED) w in
            (Ok [(u "message", u "File marked as deleted");
                 (u "file_id", file_id);
                 (u "status", u "deleted")], w1)
      end
  end.

(** [GET /files].  The parameters are validated before the handler runs;
    the outer [None] is a filter outside the modelled fragment of regular
    expressions.  Every member of [FileStatus] is a non-empty string, so
    [if status:] holds whenever a status is given. *)
Definition list_files (owner_id status content_type tags : option str)
    (limit skip : option Z) (w : World)
  : option (result (list FileListResponse.t)) :=
  match Query_status status,
        Query_int 50 1 (Some 1000%Z) limit,
        Query_int 0 0 None skip with
  | Some status, Some limit, Some skip =>
      let filter_query :=
        build_filter_query owner_id status content_type tags in
      files ← find filter_query (collection w);
      Some (Ok ((fun '(id, file_doc) => to_response (str_of_id id) file_doc)
                  <$> cursor_limit limit (cursor_skip skip files)))
  | _, _, _ => Some RequestValidationError
  end.

End Handlers.

Arguments World ObjectId {_ _}.

(** ** Predicates of the specification *)




Definition hex_value (c : N) : option N :=
  if (48 <=? c) && (c <=? 57) then Some (c - 48)
  else if (65 <=? c) && (c <=? 70) then Some (c - 55)
  else if (97 <=? c) && (c <=? 102) then Some (c - 87)
  else None.


(** A Unicode scalar value: what a string read back from the store is made
    of, as the store keeps strings in UTF-8. *)
Definition is_scalar (c : N) : bool :=
  (c <? 0xD800) || ((0xDFFF <? c) && (c <? 0x110000)).

(** A document has one of the tags of [l]. *)
Definition has_tag_in (l : list str) (d : GridFSFile.t) : Prop :=
  ∃ t, t ∈ GridFSFile.tags d ∧ t ∈ l.

#[global] Instance has_tag_in_dec l d : Decision (has_tag_in l d).
Proof.
  unfold has_tag_in.
  refine (cast_if (decide (Exists (fun t => t ∈ l) (GridFSFile.tags d))));
    rewrite Exists_exists in *; naive_solver.
Defined.

(** A document passes the owner, content type and tag parameters of a
    listing: each parameter is left out (or empty), or holds of it. *)
Definition passes (owner_id content_type tags : option str)
    (d : GridFSFile.t) : Prop :=
  (truthy owner_id = None ∨ GridFSFile.owner_id d = owner_id)
  ∧ (truthy content_type = None
     ∨ ∃ ct, content_type = Some ct
         ∧ Regex.search (u "^" ++ ct) (u "i") (GridFSFile.content_type d)
           = Some true)
  ∧ (truthy tags = None
     ∨ ∃ ts, tags = Some ts ∧ (parse_tags ts = [] ∨ has_tag_in (parse_tags ts) d)).

(** The same with the content type parameter read as a prefix, letters
    compared without regard to case. *)
Definition passes_as_prefix (owner_id content_type tags : option str)
    (d : GridFSFile.t) : Prop :=
  (truthy owner_id = None ∨ GridFSFile.owner_id d = owner_id)
  ∧ (truthy content_type = None
     ∨ ∃ ct, content_type = Some ct
         ∧ istartswith (GridFSFile.content_type d) ct = true)
  ∧ (truthy tags = None
     ∨ ∃ ts, tags = Some ts ∧ (parse_tags ts = [] ∨ has_tag_in (parse_tags ts) d)).

(** The body with every [null] member left out instead. *)
Definition drop_nulls (b : UpdateBody.t) : UpdateBody.t :=
  let drop {A} (x : field A) : field A :=
    match x with Null => Absent | _ => x end in
  UpdateBody.mk (drop (UpdateBody.status b)) (drop (UpdateBody.tags b))
    (drop (UpdateBody.description b)).

(** The fields no handler writes after the upload: two versions of a
    document agree on them. *)
Definition same_fixed_fields (d d' : GridFSFile.t) : Prop :=
  GridFSFile.file_id d' = GridFSFile.file_id d
  ∧ GridFSFile.filename d' = GridFSFile.filename d
  ∧ GridFSFile.file_size d' = GridFSFile.file_size d
  ∧ GridFSFile.upload_date d' = GridFSFile.upload_date d
  ∧ GridFSFile.content_type d' = GridFSFile.content_type d
  ∧ GridFSFile.owner_id d' = GridFSFile.owner_id d
  ∧ GridFSFile.metadata d' = GridFSFile.metadata d.

(** A character that stands for itself in a pattern. *)
Definition is_literal (c : N) : bool := is_ascii c && negb (Regex.is_meta c).

(** ** A concrete instance, for the examples

    Identifiers are numbers written as 24 hexadecimal digits, and the id of a
    document is written the same way. *)

Fixpoint hex24_aux (k : nat) (n : N) (acc : str) : str :=
  match k with
  | O => acc
  | S k' =>
      hex24_aux k' (n / 16)
        ((if n mod 16 <? 10 then 48 + n mod 16 else 87 + n mod 16) :: acc)
  end.

Definition ex_str_of_oid (n : N) : str := hex24_aux 24 n [].

Definition ex_oid_of_str (s : str) : option N :=
  if bool_decide (length s = 24%nat)
  then foldl (fun acc c => a ← acc; d ← hex_value c; Some (16 * a + d))
             (Some 0) s
  else None.

Definition ex_str_of_id (i : nat) : str := ex_str_of_oid (N.of_nat i).

Definition ex_fid : str := u "65a1b2c3d4e5f60718293a4b".
Definition ex_oid : N := 0x65a1b2c3d4e5f60718293a4b.

Definition ex_doc : GridFSFile.t :=
  GridFSFile.mk (u "cat.png") (u "image/png") 1700000000 ex_fid
    (Some (u "alice")) ACTIVE (Some 10) [u "x"; u "y"] (Some (u "a cat"))
    (Some (list_to_map [(u "uploaded_by", JStr (u "api"));
                        (u "source", JStr (u "upload_endpoint"))])).

Definition ex_blob : GridOut.t :=
  GridOut.mk (u "cat.png") 10
    (Some (list_to_map [(u "content_type", JStr (u "image/png"))]))
    [[137; 80; 78; 71; 13; 10; 26; 10; 0; 0]].

(** One stored file and its document. *)
Definition ex_world : World N :=
  mkWorld {[ex_oid := ex_blob]} [Some ex_doc] [].

(** The same document, soft-deleted. *)
Definition ex_world_deleted : World N :=
  mkWorld {[ex_oid := ex_blob]}
    [Some (GridFSFile.set_status DELETED ex_doc)] [].


(** A stored file named [café.png]. *)
Definition ex_cafe : str := u "caf" ++ [233] ++ u ".png".

(** A document whose content type is [image/vnd-dwg]. *)
Definition ex_world_dwg : World N :=
  mkWorld ∅
    [Some (GridFSFile.mk (u "plan") (u "image/vnd-dwg") 1700000000 ex_fid
             None ACTIVE (Some 10) [] None None)] [].



Definition ex_upload_pdf : UploadFile.t :=
  UploadFile.mk (Some (u "application/pdf")) (Some (u "a.pdf")) [37; 80; 68; 70].

(** Every document of a collection has the content type of an image or of a
    video. *)
Definition media_typed (c : list (option GridFSFile.t)) : Prop :=
  ∀ id d, c !! id = Some (Some d) →
          startswith_any (GridFSFile.content_type d) [u "image/"; u "video/"]
          = true.

(** A second identifier and an upload of a PNG file, for the examples. *)
Definition ex_oid2 : N := 0x65a1b2c3d4e5f60718293a4c.

Definition ex_upload_png : UploadFile.t :=
  UploadFile.mk (Some (u "image/png")) (Some (u "dog.png"))
    [137; 80; 78; 71; 13; 10; 26; 10].

(** ** Lemmas on the collection *)

Lemma str_eqb_eq (a b : str) : str_eqb a b = true ↔ a = b.
Proof. unfold str_eqb. apply bool_decide_eq_true. Qed.

Lemma find_one_from_Some fid i c j d :
  find_one_from fid i c = Some (j, d) →
  ∃ k, j = (i + k)%nat ∧ c !! k = Some (Some d) ∧ GridFSFile.file_id d = fid.
Proof.
  revert i. induction c as [|[d0|] c IH]; intros i Hf; simpl in Hf.
  - discriminate.
  - destruct (str_eqb (GridFSFile.file_id d0) fid) eqn:E.
    + inversion Hf; subst. exists 0%nat. rewrite Nat.add_0_r.
      split; [done|]. split; [done|]. by apply str_eqb_eq.
    + destruct (IH _ Hf) as (k & -> & Hk & Hid).
      exists (S k). split; [lia|]. by split.
  - destruct (IH _ Hf) as (k & -> & Hk & Hid).
    exists (S k). split; [lia|]. by split.
Qed.

Lemma find_one_Some fid c id d :
  find_one fid c = Some (id, d) →
  c !! id = Some (Some d) ∧ GridFSFile.file_id d = fid.
Proof.
  intros Hf. apply find_one_from_Some in Hf as (k & -> & Hk & Hid). by split.
Qed.

(** Writing a document with the same [file_id] over the one [find_one]
    answers leaves it the answer. *)
Lemma find_one_from_insert fid i c k d d' :
  find_one_from fid i c = Some ((i + k)%nat, d) →
  GridFSFile.file_id d' = fid →
  find_one_from fid i (<[k := Some d']> c) = Some ((i + k)%nat, d').
Proof.
  revert i k. induction c as [|[d0|] c IH]; intros i k Hf Hid; simpl in Hf.
  - discriminate.
  - destruct (str_eqb (GridFSFile.file_id d0) fid) eqn:E.
    + injection Hf as Hk Hd. destruct k as [|k]; [|lia].
      simpl. apply (proj2 (str_eqb_eq _ _)) in Hid.
      by rewrite Hid, Nat.add_0_r.
    + destruct k as [|k].
      * apply find_one_from_Some in Hf as (k' & ? & _). lia.
      * simpl. rewrite E. replace (i + S k)%nat with (S i + k)%nat in * by lia.
        by apply IH.
  - destruct k as [|k].
    + apply find_one_from_Some in Hf as (k' & ? & _). lia.
    + simpl. replace (i + S k)%nat with (S i + k)%nat in * by lia.
      by apply IH.
Qed.

Lemma find_one_insert fid c id d d' :
  find_one fid c = Some (id, d) →
  GridFSFile.file_id d' = fid →
  find_one fid (<[id := Some d']> c) = Some (id, d').
Proof. intros. by apply (find_one_from_insert fid 0 c id d d'). Qed.

Lemma find_one_from_None fid i c :
  fid ∉ file_ids c → find_one_from fid i c = None.
Proof.
  revert i. induction c as [|[d0|] c IH]; intros i Hn; simpl; [done| |].
  - unfold file_ids in Hn. simpl in Hn. apply not_elem_of_cons in Hn as [Hne Hn].
    destruct (str_eqb (GridFSFile.file_id d0) fid) eqn:E.
    + apply str_eqb_eq in E. congruence.
    + by apply IH.
  - by apply IH.
Qed.

(** When every [file_id] is the [file_id] of one document only, the document
    [find_one] answers is the only one with that [file_id]. *)
Lemma find_one_from_delete fid i c k d :
  NoDup (file_ids c) →
  find_one_from fid i c = Some ((i + k)%nat, d) →
  find_one_from fid i (<[k := None]> c) = None.
Proof.
  revert i k. induction c as [|[d0|] c IH]; intros i k Hnd Hf; simpl in Hf.
  - discriminate.
  - unfold file_ids in Hnd. simpl in Hnd. apply NoDup_cons in Hnd as [Hni Hnd].
    destruct (str_eqb (GridFSFile.file_id d0) fid) eqn:E.
    + injection Hf as Hk Hd. destruct k as [|k]; [|lia].
      simpl. apply find_one_from_None. apply str_eqb_eq in E. by subst.
    + destruct k as [|k].
      * apply find_one_from_Some in Hf as (k' & ? & _). lia.
      * simpl. rewrite E. replace (i + S k)%nat with (S i + k)%nat in * by lia.
        by apply IH.
  - destruct k as [|k].
    + apply find_one_from_Some in Hf as (k' & ? & _). lia.
    + simpl. replace (i + S k)%nat with (S i + k)%nat in * by lia.
      by apply IH.
Qed.

Lemma find_one_delete fid c id d :
  NoDup (file_ids c) →
  find_one fid c = Some (id, d) →
  find_one fid (<[id := None]> c) = None.
Proof. intros. by apply (find_one_from_delete fid 0 c id d). Qed.

Lemma apply_set_fixed upd d : same_fixed_fields d (apply_set upd d).
Proof.
  destruct upd as [[[s|] [t|]] [de|]]; repeat split.
Qed.

Lemma apply_set_file_id upd d :
  GridFSFile.file_id (apply_set upd d) = GridFSFile.file_id d.
Proof. apply apply_set_fixed. Qed.

(** Each handler keeps the [file_id]s of the collection distinct: an update
    writes a document with the same [file_id], a delete takes one away, and
    an upload files a document under the identifier of the new stored file. *)
Lemma file_ids_insert_same c id d d' :
  c !! id = Some (Some d) →
  GridFSFile.file_id d' = GridFSFile.file_id d →
  file_ids (<[id := Some d']> c) = file_ids c.
Proof.
  revert id. induction c as [|[d0|] c IH]; intros [|id] Hl Hid; simpl in *;
    try done; unfold file_ids in *; simpl.
  - simplify_eq. by rewrite Hid.
  - f_equal. by apply IH.
  - by apply IH.
Qed.

Lemma file_ids_delete_NoDup c id :
  NoDup (file_ids c) → NoDup (file_ids (<[id := None]> c)).
Proof.
  revert id. induction c as [|[d0|] c IH]; intros [|id]; simpl; try done;
    unfold file_ids in *; simpl.
  - by intros [_ ?]%NoDup_cons.
  - intros [Hn Hnd]%NoDup_cons. apply NoDup_cons. split; [|by apply IH].
    intros Hin. apply Hn. clear -Hin. revert id Hin.
    induction c as [|[d1|] c IH]; intros [|id] Hin; simpl in *; try done.
    + by apply elem_of_cons; right.
    + apply elem_of_cons in Hin as [->|Hin]; apply elem_of_cons;
        [by left|right; by eapply IH].
    + by eapply IH.
  - by apply IH.
Qed.

Lemma file_ids_append_NoDup c d :
  NoDup (file_ids c) → GridFSFile.file_id d ∉ file_ids c →
  NoDup (file_ids (c ++ [Some d])).
Proof.
  intros Hnd Hn. unfold file_ids in *. rewrite omap_app, fmap_app. simpl.
  apply NoDup_app. split; [done|]. split; [|apply NoDup_singleton].
  intros x Hx ->%list_elem_of_singleton. done.
Qed.

(** ** Lemmas on queries *)

Lemma truthy_Some o x : truthy o = Some x → o = Some x ∧ x ≠ [].
Proof. destruct o as [[|c s]|]; simpl; intros E; by simplify_eq. Qed.

Lemma existsb_has_tag l d :
  existsb (fun t => bool_decide (t ∈ l)) (GridFSFile.tags d) = true
  ↔ has_tag_in l d.
Proof.
  rewrite existsb_exists. unfold has_tag_in. split.
  - intros (t & Hin & Hb). exists t. split; [by apply list_elem_of_In|].
    by apply bool_decide_eq_true in Hb.
  - intros (t & Hin & Hl). exists t. split; [by apply list_elem_of_In|].
    by apply bool_decide_eq_true.
Qed.

(** What [find_from] selects: the documents of the collection that match. *)
Lemma find_from_elem q re i c files j d :
  find_from q re i c = Some files →
  (j, d) ∈ files
  ↔ ∃ k, j = (i + k)%nat ∧ c !! k = Some (Some d)
         ∧ doc_matches q re d = Some true.
Proof.
  revert i files. induction c as [|[d0|] c IH]; intros i files Hf; simpl in Hf.
  - simplify_eq. split; [by intros ?%elem_of_nil|]. by intros (k & _ & ? & _).
  - destruct (doc_matches q re d0) as [m|] eqn:Hm; [|done]. simpl in Hf.
    destruct (find_from q re (S i) c) as [rest|] eqn:Hr; [|done].
    simpl in Hf. simplify_eq. specialize (IH (S i) rest Hr).
    assert ((j, d) ∈ rest ↔
            ∃ k, j = (i + S k)%nat ∧ (Some d0 :: c) !! S k = Some (Some d)
                 ∧ doc_matches q re d = Some true) as IH'.
    { rewrite IH. split; intros (k & -> & ? & ?); exists k;
        (split; [lia|done]). }
    destruct m.
    + rewrite elem_of_cons, IH'. split.
      * intros [E|(k & ? & ? & ?)]; [|by exists (S k)].
        simplify_eq. exists 0%nat. split; [lia|]. by split.
      * intros ([|k] & -> & Hk & Hd); [left|right; by exists k].
        simpl in Hk. simplify_eq. by rewrite Nat.add_0_r.
    + rewrite IH'. split.
      * intros (k & ? & ? & ?). by exists (S k).
      * intros ([|k] & -> & Hk & Hd); [|by exists k].
        simpl in Hk. simplify_eq.
  - specialize (IH (S i) files Hf). rewrite IH. split.
    + intros (k & -> & ? & ?). exists (S k). split; [lia|done].
    + intros ([|k] & -> & Hk & Hd); [done|]. exists k. split; [lia|done].
Qed.

Lemma find_from_length q re i c files :
  find_from q re i c = Some files → (length files ≤ length c)%nat.
Proof.
  revert i files. induction c as [|[d0|] c IH]; intros i files Hf; simpl in Hf.
  - by simplify_eq.
  - destruct (doc_matches q re d0) as [m|]; [|done]. simpl in Hf.
    destruct (find_from q re (S i) c) as [rest|] eqn:Hr; [|done].
    simpl in Hf. simplify_eq. specialize (IH _ _ Hr).
    destruct m; simpl; lia.
  - specialize (IH _ _ Hf). simpl. lia.
Qed.

(** Without a regular expression every query is within the model. *)
Lemma find_from_total q i c : is_Some (find_from q None i c).
Proof.
  revert i. induction c as [|[d0|] c IH]; intros i; simpl; [done| |done].
  destruct (IH (S i)) as [rest ->]. by simpl.
Qed.

(** The [$in] condition on the tags selects, among the documents the rest of
    the query selects, those that have one of the tags. *)
Lemma find_from_tags o s ct l re i c :
  find_from (FilterQuery.mk o s ct (Some l)) re i c
  = filter (fun p => has_tag_in l p.2)
    <$> find_from (FilterQuery.mk o s ct None) re i c.
Proof.
  revert i. induction c as [|[d0|] c IH]; intros i; simpl; [done| |done].
  rewrite IH. unfold doc_matches. simpl.
  destruct (match re with Some _ => _ | None => _ end) as [b|]; [|done].
  simpl. destruct (find_from _ re (S i) c) as [rest|]; [|done]. simpl.
  rewrite andb_true_r.
  destruct (existsb _ (GridFSFile.tags d0)) eqn:E.
  - apply existsb_has_tag in E. rewrite andb_true_r.
    destruct (_ && b); [|done]. by rewrite filter_cons_True.
  - rewrite andb_false_r. assert (¬ has_tag_in l d0) as Hn.
    { intros Ht%existsb_has_tag. congruence. }
    destruct (_ && b); [|done]. by rewrite filter_cons_False.
Qed.

(** ** Lemmas on the encodings *)

Ltac div_lia := zify; Z.to_euclidean_division_equations; lia.

Lemma utf8_char_bytes c bs :
  utf8_char c = Some bs →
  Forall (fun b => b < 256) bs
  ∧ (is_ascii c = true → bs = [c])
  ∧ (is_ascii c = false → Forall (fun b => 128 ≤ b) bs).
Proof.
  unfold utf8_char, is_ascii.
  destruct (N.ltb_spec c 0x80).
  { intros E. simplify_eq. split; [|done]. repeat constructor. lia. }
  destruct (N.ltb_spec c 0x800).
  { intros E. simplify_eq. split; [|split; [done|intros _]];
      repeat constructor; div_lia. }
  destruct (N.ltb_spec c 0x10000).
  { destruct (_ && _); [done|]. intros E. simplify_eq.
    split; [|split; [done|intros _]]; repeat constructor; div_lia. }
  destruct (N.ltb_spec c 0x110000); [|done].
  intros E. simplify_eq.
  split; [|split; [done|intros _]]; repeat constructor; div_lia.
Qed.

Lemma utf8_char_scalar c : is_scalar c = true → is_Some (utf8_char c).
Proof.
  unfold is_scalar, utf8_char. intros Hs.
  destruct (N.ltb_spec c 0x80); [done|].
  destruct (N.ltb_spec c 0x800); [done|].
  destruct (N.ltb_spec c 0x10000).
  - destruct (N.leb_spec 0xD800 c), (N.leb_spec c 0xDFFF); simpl; try done.
    destruct (N.ltb_spec c 0xD800), (N.ltb_spec 0xDFFF c); simpl in Hs;
      try done; lia.
  - destruct (N.ltb_spec c 0x110000); [done|].
    destruct (N.ltb_spec c 0xD800), (N.ltb_spec 0xDFFF c); simpl in Hs;
      try done; lia.
Qed.

(** A string of scalar values has UTF-8 bytes, and a slash among them comes
    from a slash of the string. *)
Lemma encode_utf8_scalars s :
  forallb is_scalar s = true →
  ∃ bs, encode_utf8 s = Some bs
        ∧ Forall (fun b => b < 256) bs
        ∧ (slash ∉ s → slash ∉ bs).
Proof.
  induction s as [|c s IH]; simpl.
  - intros _. exists []. by repeat split.
  - intros [Hc Hs]%andb_true_iff. destruct (IH Hs) as (bs & -> & Hb & Hsl).
    destruct (utf8_char_scalar c Hc) as [b Hu]. rewrite Hu.
    destruct (utf8_char_bytes c b Hu) as (Hlt & Ha & Hna).
    exists (b ++ bs). split; [done|]. split; [by apply Forall_app|].
    intros [Hne Hn]%not_elem_of_cons. rewrite elem_of_app.
    intros [Hin|Hin]; [|by apply Hsl].
    destruct (is_ascii c) eqn:E.
    + rewrite (Ha eq_refl) in Hin. apply list_elem_of_singleton in Hin. done.
    + specialize (Hna eq_refl). rewrite Forall_forall in Hna.
      specialize (Hna _ Hin). unfold slash in Hna. lia.
Qed.





Lemma quote_cons b bs : quote (b :: bs) = quote_byte b ++ quote bs.
Proof. done. Qed.



Lemma encode_ascii_spec s :
  encode_ascii s = if forallb is_ascii s then Some s else None.
Proof. done. Qed.

(** ** Lemmas on patterns without special characters *)

Lemma tokens_literal p :
  forallb is_literal p = true →
  Regex.tokens false p = Some (Regex.TAtom ∘ Regex.Lit <$> p).
Proof.
  induction p as [|c p IH]; [done|]. simpl.
  intros [[Ha Hm]%andb_true_iff Hp]%andb_true_iff.
  apply negb_true_iff in Hm. rewrite Ha, (IH Hp). simpl.
  destruct (N.eqb_spec c Regex.backslash) as [E|];
    [rewrite E in Hm; by vm_compute in Hm|].
  destruct (N.eqb_spec c 46) as [E|]; [rewrite E in Hm; by vm_compute in Hm|].
  destruct (N.eqb_spec c 42) as [E|]; [rewrite E in Hm; by vm_compute in Hm|].
  destruct (N.eqb_spec c 43) as [E|]; [rewrite E in Hm; by vm_compute in Hm|].
  destruct (N.eqb_spec c 63) as [E|]; [rewrite E in Hm; by vm_compute in Hm|].
  by rewrite Hm.
Qed.

Lemma build_literal p :
  Regex.build (Regex.TAtom ∘ Regex.Lit <$> p)
  = Some ((fun c => (Regex.Lit c, Regex.Once)) <$> p).
Proof.
  induction p as [|c p IH]; [done|]. simpl.
  destruct p as [|c' p]; [done|]. simpl in *. by rewrite IH.
Qed.

Lemma match_here_literal p s :
  Regex.match_here true ((fun c => (Regex.Lit c, Regex.Once)) <$> p) s
  = istartswith s p.
Proof.
  revert s. induction p as [|c p IH]; intros s; [by destruct s|].
  destruct s as [|x s]; simpl; [done|]. by rewrite IH.
Qed.

(** On a filter without special characters the store's search is the prefix
    test without regard to case. *)
Lemma search_literal p s :
  forallb is_literal p = true →
  forallb is_ascii s = true →
  Regex.search (u "^" ++ p) (u "i") s = Some (istartswith s p).
Proof.
  intros Hp Hs. unfold Regex.search. simpl. rewrite Hs.
  unfold Regex.compile. rewrite (tokens_literal p Hp). simpl.
  rewrite build_literal. simpl. by rewrite match_here_literal.
Qed.

(** ** The handlers *)

Section Properties.

Context {ObjectId : Type} `{Countable ObjectId}.
Variable ObjectId_of_str : str → option ObjectId.
Variable str_of_ObjectId : ObjectId → str.
Variable str_of_id : nat → str.
Implicit Types (w : World ObjectId) (d : GridFSFile.t) (fid : str).

Lemma ObjectId_is_valid_Some fid oid :
  ObjectId_of_str fid = Some oid → ObjectId_is_valid ObjectId_of_str fid = true.
Proof. intros E. unfold ObjectId_is_valid. rewrite E. by apply bool_decide_eq_true. Qed.

(** The download reads the bucket only. *)
Lemma get_file_bucket fid opening disconnected w w' :
  bucket w' = bucket w →
  get_file ObjectId_of_str fid opening disconnected w'
  = get_file ObjectId_of_str fid opening disconnected w.
Proof. intros E. unfold get_file. by rewrite E. Qed.

Lemma doc_update_collection id f w d :
  collection w !! id = Some (Some d) →
  collection (doc_update id f w) = <[id := Some (f d)]> (collection w)
  ∧ collection (doc_update id f w) !! id = Some (Some (f d)).
Proof.
  intros Hl. unfold doc_update. simpl. rewrite Hl. split; [done|].
  rewrite list_lookup_insert_eq; [done|]. by eapply lookup_lt_Some.
Qed.

(** A valid upload stores the payload under the new identifier, then files
    one document for it. *)
Lemma upload_file_stores file ct owner_id tags description new_oid now w :
  UploadFile.content_type file = Some ct →
  startswith_any ct [u "image/"; u "video/"] = true →
  ∃ r g d,
    upload_file str_of_ObjectId file owner_id tags description new_oid now w
    = (Ok r,
       mkWorld (<[new_oid := g]> (bucket w)) (collection w ++ [Some d])
         (calls w ++ [UploadFromStream new_oid;
                      DocInsert (length (collection w))]))
    ∧ GridOut.length g = N.of_nat (length (UploadFile.file file))
    ∧ GridFSFile.file_id d = str_of_ObjectId new_oid
    ∧ GridFSFile.status d = ACTIVE
    ∧ GridFSFile.content_type d = ct.
Proof.
  intros Hct Hsw. unfold upload_file. rewrite Hct.
  destruct ct as [|c ct]; [discriminate|]. simpl truthy. cbv iota.
  rewrite Hsw. simpl negb. cbv iota.
  eexists _, _, _. split.
  - unfold doc_insert, upload_from_stream. simpl.
    rewrite <- app_assoc. reflexivity.
  - done.
Qed.

(** C2.  An upload whose content type is missing, empty, or starts with
    neither [image/] nor [video/] is answered with status 400, and the world
    is the one before the request: no file in the bucket, no document in
    the collection, no store call at all. *)
Theorem upload_file_rejects_other_content_types
    file owner_id tags description new_oid now w :
  (∀ ct, UploadFile.content_type file = Some ct →
         startswith ct (u "image/") = false
         ∧ startswith ct (u "video/") = false) →
  upload_file str_of_ObjectId file owner_id tags description new_oid now w
  = (HTTPException 400 (u "Only images and videos are allowed"), w).
Proof.
  intros Hct. unfold upload_file.
  destruct (UploadFile.content_type file) as [[|c ct]|]; [done| |done].
  destruct (Hct _ eq_refl) as [Hi Hv]. simpl truthy. cbv iota.
  unfold startswith_any. cbn [existsb]. by rewrite Hi, Hv.
Qed.

(** C4.  An update of an existing document changes the stored document in
    the fields the request gives and in no other: each of [status], [tags]
    and [description] takes the value of the request when the request has
    one and keeps its own otherwise; [file_id], [filename], [file_size] and
    [upload_date] (and the other fields) are as before, and so are the other
    documents and the bucket.  The handler answers with the document when the
    request gives no field, and with status 500 once it has written one. *)
Theorem update_file_changes_given_fields_only fid body req w id d :
  FileUpdateRequest_validate body = Some req →
  ObjectId_is_valid ObjectId_of_str fid = true →
  find_one fid (collection w) = Some (id, d) →
  ∃ r d' w',
    update_file ObjectId_of_str str_of_id fid body w = (r, w')
    ∧ find_one fid (collection w') = Some (id, d')
    ∧ GridFSFile.status d'
      = default (GridFSFile.status d) (FileUpdateRequest.status req)
    ∧ GridFSFile.tags d'
      = default (GridFSFile.tags d) (FileUpdateRequest.tags req)
    ∧ GridFSFile.description d'
      = match FileUpdateRequest.description req with
        | Some v => Some v
        | None => GridFSFile.description d
        end
    ∧ same_fixed_fields d d'
    ∧ (∀ j, j ≠ id → collection w' !! j = collection w !! j)
    ∧ bucket w' = bucket w
    ∧ r = match update_dict req with
          | (None, None, None) => Ok (to_response (str_of_id id) d)
          | _ => HTTPException 500 (u "Internal Server Error")
          end.
Proof.
  intros Hv Hid Hf. unfold update_file. rewrite Hv, Hid, Hf. simpl negb.
  cbv iota. destruct (find_one_Some _ _ _ _ Hf) as [Hl Hfid].
  assert (∀ upd,
    let w1 := doc_update id (apply_set upd) w in
    find_one fid (collection w1) = Some (id, apply_set upd d)
    ∧ (∀ j, j ≠ id → collection w1 !! j = collection w !! j)
    ∧ bucket w1 = bucket w) as Hupd.
  { intros upd w1. destruct (doc_update_collection id (apply_set upd) w d Hl)
      as [Hc _]. unfold w1. rewrite Hc. split.
    - apply find_one_insert with (d := d); [done|].
      by rewrite apply_set_file_id.
    - split; [|done]. intros j Hj. by rewrite list_lookup_insert_ne. }
  destruct req as [[s|] [t|] [de|]]; unfold update_dict; simpl;
    try (match goal with
         | |- context [doc_update id (apply_set ?u) w] =>
             destruct (Hupd u) as (Hfo & Hot & Hb);
             eexists _, _, _; split; [reflexivity|];
             split; [exact Hfo|]; repeat split; done
         end).
  eexists _, _, _. split; [reflexivity|]. split; [exact Hf|]. by repeat split.
Qed.

(** C6.  A delete that is not permanent answers with success and writes
    [deleted] into the status of the document; every other field, every
    other document and the bucket stay.  [get_file_info] then answers the
    record with status [deleted] and every other field as it was, and a
    download of the same id answers what it answered before: when the bucket
    has the file, the stream opens, the name can be encoded and the stored
    content type can be a media type, that is the file. *)
Theorem soft_delete_keeps_record_and_blob fid oid w id d fault :
  ObjectId_of_str fid = Some oid →
  find_one fid (collection w) = Some (id, d) →
  ∃ d' w' info,
    delete_file ObjectId_of_str fid false fault w
    = (Ok [(u "message", u "File marked as deleted"); (u "file_id", fid);
           (u "status", u "deleted")], w')
    ∧ collection w' = <[id := Some d']> (collection w)
    ∧ bucket w' = bucket w
    ∧ GridFSFile.status d' = DELETED
    ∧ GridFSFile.tags d' = GridFSFile.tags d
    ∧ GridFSFile.description d' = GridFSFile.description d
    ∧ same_fixed_fields d d'
    ∧ get_file_info ObjectId_of_str str_of_id fid w' = Ok info
    ∧ FileListResponse.status info = DELETED
    ∧ FileListResponse.id info = str_of_id id
    ∧ FileListResponse.filename info = GridFSFile.filename d
    ∧ FileListResponse.content_type info = Some (GridFSFile.content_type d)
    ∧ FileListResponse.upload_date info = GridFSFile.upload_date d
    ∧ FileListResponse.file_size info = GridFSFile.file_size d
    ∧ FileListResponse.owner_id info = GridFSFile.owner_id d
    ∧ FileListResponse.tags info = GridFSFile.tags d
    ∧ FileListResponse.description info = GridFSFile.description d
    ∧ (∀ opening disconnected,
         get_file ObjectId_of_str fid opening disconnected w'
         = get_file ObjectId_of_str fid opening disconnected w)
    ∧ (∀ g disconnected,
         bucket w !! oid = Some g →
         is_Some (content_disposition (str_or (GridOut.filename g) (u "file"))) →
         media_type_ok (stored_content_type g) = true →
         ∃ resp,
           get_file ObjectId_of_str fid Opened disconnected w' = Ok resp
           ∧ StreamingResponse.body resp
             = stream_file (GridOut.chunks g) disconnected
           ∧ StreamingResponse.media_type resp = stored_content_type g
           ∧ header (u "Content-Length") (StreamingResponse.headers resp)
             = Some (str_of_N (GridOut.length g))).
Proof.
  intros Ho Hf. destruct (find_one_Some _ _ _ _ Hf) as [Hl Hfid].
  destruct (doc_update_collection id (GridFSFile.set_status DELETED) w d Hl)
    as [Hc _].
  exists (GridFSFile.set_status DELETED d),
         (doc_update id (GridFSFile.set_status DELETED) w),
         (to_response (str_of_id id) (GridFSFile.set_status DELETED d)).
  split. { unfold delete_file. by rewrite Ho, Hf. }
  split; [done|]. split; [done|]. do 3 (split; [done|]).
  split; [by repeat split|]. split.
  { unfold get_file_info. rewrite (ObjectId_is_valid_Some _ _ Ho).
    cbn [negb]. cbv iota. rewrite Hc.
    by rewrite (find_one_insert fid _ id d (GridFSFile.set_status DELETED d) Hf Hfid). }
  do 9 (split; [reflexivity|]).
  split; [intros; by apply get_file_bucket|].
  intros g disconnected Hg [cd Hcd] Hm. unfold get_file. simpl.
  rewrite Ho, Hg, Hcd, Hm. by eexists.
Qed.

(** C7.  A permanent delete of an existing document calls the bucket first
    and the collection second.  Whether or not the bucket raised (it had no
    such file, or it failed), the document is deleted and the answer is the
    success message.  When no two documents share a [file_id] (the identifier
    of a stored file is the [file_id] of one document), [get_file_info] then
    answers 404. *)
Theorem permanent_delete_removes_record fid oid w id d fault :
  ObjectId_of_str fid = Some oid →
  find_one fid (collection w) = Some (id, d) →
  ∃ w' raised,
    delete_file ObjectId_of_str fid true fault w
    = (Ok [(u "message", u "File permanently deleted"); (u "file_id", fid)],
       w')
    ∧ raised = fault || bool_decide (bucket w !! oid = None)
    ∧ calls w' = calls w ++ [BucketDelete oid raised; DocDelete id]
    ∧ bucket w' = (if raised then bucket w else delete oid (bucket w))
    ∧ (fault = false → bucket w' !! oid = None)
    ∧ collection w' = <[id := None]> (collection w)
    ∧ collection w' !! id = Some None
    ∧ (NoDup (file_ids (collection w)) →
       get_file_info ObjectId_of_str str_of_id fid w'
       = HTTPException 404 (u "File not found")).
Proof.
  intros Ho Hf. destruct (find_one_Some _ _ _ _ Hf) as [Hl Hfid].
  unfold delete_file. rewrite Ho, Hf. cbv iota.
  destruct (bucket_delete oid fault w) as [r w1] eqn:Hbd.
  exists (doc_delete id w1), (fault || bool_decide (bucket w !! oid = None)).
  split; [done|]. split; [done|].
  assert (collection w1 = collection w
          ∧ calls w1 = calls w ++ [BucketDelete oid (fault || bool_decide (bucket w !! oid = None))]
          ∧ bucket w1 = (if fault || bool_decide (bucket w !! oid = None)
                         then bucket w else delete oid (bucket w)))
    as (Hc1 & Hl1 & Hb1).
  { unfold bucket_delete in Hbd.
    destruct fault, (bucket w !! oid) eqn:Hb; inversion Hbd; subst; done. }
  simpl. rewrite Hc1, Hl1, Hb1, <- app_assoc. split; [done|]. split; [done|].
  split.
  { intros ->. simpl. case_bool_decide as Hb; [done|]. apply lookup_delete_eq. }
  split; [done|]. split.
  { rewrite list_lookup_insert_eq; [done|]. by eapply lookup_lt_Some. }
  intros Hnd. unfold get_file_info. rewrite (ObjectId_is_valid_Some _ _ Ho).
  cbn [negb collection doc_delete]. cbv iota.
  rewrite Hc1. by rewrite (find_one_delete fid _ id d Hnd Hf).
Qed.

Lemma validate_drop_nulls body :
  FileUpdateRequest_validate (drop_nulls body)
  = FileUpdateRequest_validate body.
Proof. by destruct body as [[| |?] [| |?] [| |?]]. Qed.

Lemma validate_null body req :
  FileUpdateRequest_validate body = Some req →
  (UpdateBody.status body = Null → FileUpdateRequest.status req = None)
  ∧ (UpdateBody.tags body = Null → FileUpdateRequest.tags req = None)
  ∧ (UpdateBody.description body = Null →
     FileUpdateRequest.description req = None).
Proof.
  destruct body as [s t de]. unfold FileUpdateRequest_validate. simpl.
  intros Hv. repeat split; intros E; subst; simpl in Hv;
    repeat match type of Hv with
           | context [validate_field _ ?x] =>
               is_var x; destruct x; simpl in Hv
           end;
    repeat match type of Hv with
           | context [FileStatus_of_value ?x] =>
               destruct (FileStatus_of_value x); simpl in Hv
           end;
    by simplify_eq.
Qed.

(** C9.  A member of the body that is [null] is handled as if it were left
    out: the answer and the world are those of the request without it.  So
    a [null] leaves the stored field as it is, and no update at all takes a
    description away from a document that has one. *)
Theorem update_file_null_is_absent fid body w id d :
  find_one fid (collection w) = Some (id, d) →
  update_file ObjectId_of_str str_of_id fid body w
  = update_file ObjectId_of_str str_of_id fid (drop_nulls body) w
  ∧ ∃ d',
      collection (update_file ObjectId_of_str str_of_id fid body w).2 !! id
      = Some (Some d')
      ∧ (UpdateBody.status body = Null →
         GridFSFile.status d' = GridFSFile.status d)
      ∧ (UpdateBody.tags body = Null →
         GridFSFile.tags d' = GridFSFile.tags d)
      ∧ (UpdateBody.description body = Null →
         GridFSFile.description d' = GridFSFile.description d)
      ∧ (is_Some (GridFSFile.description d) →
         is_Some (GridFSFile.description d')).
Proof.
  intros Hf. destruct (find_one_Some _ _ _ _ Hf) as [Hl Hfid]. split.
  { unfold update_file. by rewrite validate_drop_nulls. }
  unfold update_file.
  destruct (FileUpdateRequest_validate body) as [req|] eqn:Hv;
    [|by exists d].
  destruct (negb (ObjectId_is_valid ObjectId_of_str fid)); [by exists d|].
  rewrite Hf. destruct (validate_null _ _ Hv) as (Hs & Ht & Hde).
  destruct req as [[s|] [t|] [de|]]; unfold update_dict; simpl in *;
    rewrite Hl;
    (eexists; split;
       [first [reflexivity
              |apply list_lookup_insert_eq; by eapply lookup_lt_Some]|]);
    repeat split; try done; intros E;
    try (specialize (Hs E)); try (specialize (Ht E));
    try (specialize (Hde E)); by simplify_eq.
Qed.

Local Abbreviation resp :=
  (fun '(id, file_doc) => to_response (str_of_id id) file_doc).

Lemma cursor_limit_length {A} (n : Z) (l : list A) :
  (1 ≤ n)%Z → (length (cursor_limit n l) ≤ Z.to_nat n)%nat.
Proof.
  intros Hn. unfold cursor_limit. destruct (Z.eqb_spec n 0); [lia|].
  rewrite length_take. lia.
Qed.

Lemma Query_int_limit limit l :
  Query_int 50 1 (Some 1000%Z) limit = Some l → (1 ≤ l ≤ 1000)%Z.
Proof.
  destruct limit as [v|]; simpl; [|intros; simplify_eq; lia].
  destruct (Z.leb_spec 1 v), (Z.leb_spec v 1000); simpl; intros;
    simplify_eq; lia.
Qed.

(** C1, as the code has it.  A limit below 1 or above 1000 is not clamped:
    the request is rejected (status 422) before the handler runs.  A limit
    that is left out is 50.  A limit within bounds is the most the answer
    holds, so no answer holds more than 1000 documents; and with parameters
    that validate and no content type filter there is an answer. *)
Theorem list_files_limit_is_checked
    owner_id status content_type tags limit skip w :
  ((limit < 1 ∨ 1000 < limit)%Z →
     list_files str_of_id owner_id status content_type tags (Some limit)
       skip w = Some RequestValidationError)
  ∧ list_files str_of_id owner_id status content_type tags None skip w
    = list_files str_of_id owner_id status content_type tags (Some 50%Z)
        skip w
  ∧ (∀ rs,
       list_files str_of_id owner_id status content_type tags (Some limit)
         skip w = Some (Ok rs) →
       (1 ≤ limit ≤ 1000)%Z
       ∧ (length rs ≤ Z.to_nat limit)%nat ∧ (length rs ≤ 1000)%nat)
  ∧ ((1 ≤ limit ≤ 1000)%Z →
     is_Some (Query_status status) →
     is_Some (Query_int 0 0 None skip) →
     truthy content_type = None →
     ∃ rs,
       list_files str_of_id owner_id status content_type tags (Some limit)
         skip w = Some (Ok rs)).
Proof.
  split; [|split; [done|split]].
  - intros Hl. unfold list_files. simpl.
    destruct (Z.leb_spec 1 limit), (Z.leb_spec limit 1000); try lia;
      simpl; by destruct (Query_status status).
  - intros rs. unfold list_files.
    destruct (Query_status status) as [st|]; [|done].
    destruct (Query_int 50 1 (Some 1000%Z) (Some limit)) as [l|] eqn:Hl;
      [|done].
    destruct (Query_int 0 0 None skip) as [s|]; [|done].
    destruct (find _ _) as [files|]; [|done]. simpl. intros E.
    simplify_eq. pose proof (Query_int_limit _ _ Hl) as Hb.
    assert (l = limit) as ->.
    { simpl in Hl. by destruct (_ && _); simplify_eq. }
    split; [done|]. rewrite length_fmap.
    pose proof (cursor_limit_length limit (cursor_skip s files)). lia.
  - intros Hl [st Hst] [s Hs] Hct. unfold list_files.
    rewrite Hst, Hs. simpl.
    destruct (Z.leb_spec 1 limit), (Z.leb_spec limit 1000); try lia. simpl.
    unfold find, build_filter_query. simpl. rewrite Hct. simpl.
    destruct (find_from_total
                (FilterQuery.mk (truthy owner_id) st None
                   match truthy tags with
                   | Some ts => match parse_tags ts with
                                | [] => None
                                | t :: l => Some (t :: l)
                                end
                   | None => None
                   end) 0 (collection w)) as [files ->].
    by eexists.
Qed.

(** C5, as the code has it.  The tag parameter is cut at the commas, each
    piece trimmed and the empty pieces dropped.  When tags remain, the
    listing selects, among the documents the other parameters select,
    exactly those with one of these tags, in the same order; when none
    remains (as for [","]) the parameter selects nothing out. *)
Theorem list_files_tags_filter
    owner_id status st content_type ts limit l skip s w base :
  Query_status status = Some st →
  Query_int 50 1 (Some 1000%Z) limit = Some l →
  Query_int 0 0 None skip = Some s →
  find (build_filter_query owner_id st content_type None) (collection w)
  = Some base →
  ∃ files,
    find (build_filter_query owner_id st content_type (Some ts)) (collection w)
    = Some files
    ∧ list_files str_of_id owner_id status content_type (Some ts) limit skip w
      = Some (Ok (resp <$> cursor_limit l (cursor_skip s files)))
    ∧ files = match parse_tags ts with
              | [] => base
              | tag_list => filter (fun p => has_tag_in tag_list p.2) base
              end
    ∧ (parse_tags ts ≠ [] →
       ∀ id d, (id, d) ∈ files
               ↔ (id, d) ∈ base ∧ has_tag_in (parse_tags ts) d).
Proof.
  clear ObjectId_of_str str_of_ObjectId. intros Hst Hl Hs Hbase.
  assert (∃ files,
    find (build_filter_query owner_id st content_type (Some ts)) (collection w)
    = Some files
    ∧ files = match parse_tags ts with
              | [] => base
              | tag_list => filter (fun p => has_tag_in tag_list p.2) base
              end) as (files & Hfind & Hfiles).
  { unfold find, build_filter_query in *. simpl in *.
    destruct (compile_condition _) as [re|]; [|done]. simpl in *.
    destruct ts as [|c ts'];
      [eexists; split; [exact Hbase|reflexivity]|].
    simpl truthy. cbv iota.
    destruct (parse_tags (c :: ts')) as [|t tl];
      [eexists; split; [exact Hbase|reflexivity]|].
    rewrite find_from_tags, Hbase. by eexists. }
  exists files. split; [done|]. split.
  { unfold list_files. rewrite Hst, Hl, Hs. cbv zeta. by rewrite Hfind. }
  split; [done|]. intros Hne id d. rewrite Hfiles.
  destruct (parse_tags ts) as [|t tl]; [done|].
  rewrite list_elem_of_filter. simpl. tauto.
Qed.

(** A document that passes the owner, content type and tag parameters
    matches the query built from them and no status. *)
Lemma passes_doc_matches owner_id content_type tags d re :
  compile_condition
    (FilterQuery.content_type
       (build_filter_query owner_id None content_type tags)) = Some re →
  passes owner_id content_type tags d →
  doc_matches (build_filter_query owner_id None content_type tags) re d
  = Some true.
Proof.
  intros Hre (Ho & Hc & Ht). unfold doc_matches, build_filter_query in *.
  simpl in *.
  assert (match re with
          | Some (r, caseless) =>
              if forallb is_ascii (GridFSFile.content_type d)
              then Some (Regex.match_here caseless r (GridFSFile.content_type d))
              else None
          | None => Some true
          end = Some true) as ->.
  { destruct (truthy content_type) as [x|] eqn:Hx.
    - destruct Hc as [|(ct & -> & Hsearch)]; [done|].
      apply truthy_Some in Hx as [Hx _]. simplify_eq.
      unfold Regex.search in Hsearch. simpl in Hsearch, Hre.
      destruct (forallb is_ascii (GridFSFile.content_type d)); [|done].
      destruct (Regex.compile x) as [r|]; [|done]. simpl in Hsearch, Hre.
      simplify_eq. congruence.
    - simpl in Hre. by simplify_eq. }
  simpl. f_equal. rewrite !andb_true_iff. split; [split; [split|]|];
    [|done|done|].
  - destruct (truthy owner_id) as [o|] eqn:Hx; [|done].
    destruct Ho as [|Ho]; [done|]. apply truthy_Some in Hx as [-> _].
    by apply bool_decide_eq_true.
  - destruct (truthy tags) as [x|] eqn:Hx; [|done].
    destruct Ht as [|(ts & -> & Ht)]; [done|].
    apply truthy_Some in Hx as [Hx _]. simplify_eq.
    destruct (parse_tags x) as [|t tl] eqn:Hp; [done|].
    destruct Ht as [|Ht]; [done|]. by apply existsb_has_tag.
Qed.

(** A listing without a status parameter selects a document that passes the
    owner, content type and tag parameters, whatever its status: it is one
    of the documents the answer is cut from by [skip] and [limit], and its
    response is in the answer when nothing is skipped and the limit is no
    less than the size of the collection. *)
Lemma list_files_selects_passing
    owner_id content_type tags limit l skip s w id d :
  Query_int 50 1 (Some 1000%Z) limit = Some l →
  Query_int 0 0 None skip = Some s →
  collection w !! id = Some (Some d) →
  passes owner_id content_type tags d →
  is_Some (find (build_filter_query owner_id None content_type tags)
             (collection w)) →
  ∃ files,
    find (build_filter_query owner_id None content_type tags) (collection w)
    = Some files
    ∧ (id, d) ∈ files
    ∧ list_files str_of_id owner_id None content_type tags limit skip w
      = Some (Ok (resp <$> cursor_limit l (cursor_skip s files)))
    ∧ (s = 0%Z → (length (collection w) ≤ Z.to_nat l)%nat →
       to_response (str_of_id id) d
       ∈ resp <$> cursor_limit l (cursor_skip s files)).
Proof.
  intros Hl Hs Hd Hp [files Hfind]. exists files. split; [done|].
  assert ((id, d) ∈ files) as Hin.
  { unfold find in Hfind.
    destruct (compile_condition _) as [re|] eqn:Hre; [|done].
    simpl in Hfind. apply (find_from_elem _ _ _ _ _ id d Hfind).
    exists id. split; [done|]. split; [done|].
    by apply passes_doc_matches. }
  split; [done|]. split.
  { unfold list_files. rewrite Hl, Hs. simpl. by rewrite Hfind. }
  intros -> Hlen. unfold cursor_skip, cursor_limit.
  change (Z.to_nat 0) with 0%nat. rewrite drop_0.
  assert (length files ≤ length (collection w))%nat as Hfl.
  { unfold find in Hfind. destruct (compile_condition _); [|done].
    by eapply find_from_length. }
  destruct (l =? 0)%Z; [|rewrite take_ge by lia];
    by apply (list_elem_of_fmap_2 resp _ (id, d)).
Qed.


End Properties.

(** ** The properties at concrete requests *)

(** C3.  The content type parameter reaches the store as a pattern, not as a
    literal prefix: the parameter [image/vnd.dwg] lists a document whose
    content type is [image/vnd-dwg], which does not start with it. *)
Theorem list_files_content_type_is_a_pattern :
  istartswith (u "image/vnd-dwg") (u "image/vnd.dwg") = false
  ∧ ∃ r,
      list_files ex_str_of_id None None (Some (u "image/vnd.dwg")) None
        None None ex_world_dwg = Some (Ok [r])
      ∧ FileListResponse.content_type r = Some (u "image/vnd-dwg").
Proof. split; [by vm_compute|]. eexists. split; by vm_compute. Qed.


(** A limit of 2000 is rejected: the answer is not the answer to a limit of
    1000. *)
Lemma list_files_limit_2000_is_rejected :
  list_files ex_str_of_id None None None None (Some 2000%Z) None ex_world
  = Some RequestValidationError
  ∧ list_files ex_str_of_id None None None None (Some 2000%Z) None ex_world
    ≠ list_files ex_str_of_id None None None None (Some 1000%Z) None ex_world.
Proof. split; [reflexivity|]. vm_compute. discriminate. Qed.

Lemma list_files_limit_is_checked_witness :
  list_files ex_str_of_id None None None None (Some 0%Z) None ex_world
  = Some RequestValidationError
  ∧ ∃ rs,
      list_files ex_str_of_id None None None None (Some 1%Z) None ex_world
      = Some (Ok rs).
Proof.
  split.
  - apply (list_files_limit_is_checked ex_str_of_id None None None None 0%Z
             None ex_world). lia.
  - apply (list_files_limit_is_checked ex_str_of_id None None None None 1%Z
             None ex_world); [lia|by eexists|by eexists|reflexivity].
Defined.

Lemma upload_file_rejects_other_content_types_witness :
  upload_file ex_str_of_oid ex_upload_pdf None None None 7 1700000000 ex_world
  = (HTTPException 400 (u "Only images and videos are allowed"), ex_world).
Proof.
  apply upload_file_rejects_other_content_types.
  intros ct E. injection E as <-. split; reflexivity.
Defined.

Lemma update_file_changes_given_fields_only_witness :
  ∃ r d' w',
    update_file ex_oid_of_str ex_str_of_id ex_fid
      (UpdateBody.mk Absent (Given [u "z"]) Absent) ex_world = (r, w')
    ∧ collection w' = [Some d']
    ∧ GridFSFile.tags d' = [u "z"]
    ∧ GridFSFile.status d' = ACTIVE
    ∧ GridFSFile.description d' = Some (u "a cat")
    ∧ GridFSFile.filename d' = u "cat.png"
    ∧ bucket w' = bucket ex_world.
Proof.
  destruct (update_file_changes_given_fields_only ex_oid_of_str ex_str_of_id
              ex_fid (UpdateBody.mk Absent (Given [u "z"]) Absent)
              (FileUpdateRequest.mk None (Some [u "z"]) None)
              ex_world 0%nat ex_doc)
    as (r & d' & w' & Hu & Hfo & Hs & Ht & Hd & Hfix & _ & Hb & _);
    [reflexivity..|].
  exists r, d', w'. split; [exact Hu|].
  assert (collection w' = [Some d']) as Hc.
  { pose proof (f_equal (fun x => collection x.2) Hu) as Hw.
    cbn [snd] in Hw. rewrite <- Hw in Hfo |- *. clear Hw.
    vm_compute in Hfo |- *. injection Hfo as <-. reflexivity. }
  split; [exact Hc|]. split; [exact Ht|]. split; [exact Hs|].
  split; [exact Hd|]. split; [|exact Hb].
  destruct Hfix as (_ & Hn & _). exact Hn.
Defined.

Lemma soft_delete_keeps_record_and_blob_witness :
  ∃ w' info resp,
    delete_file ex_oid_of_str ex_fid false false ex_world
    = (Ok [(u "message", u "File marked as deleted"); (u "file_id", ex_fid);
           (u "status", u "deleted")], w')
    ∧ get_file_info ex_oid_of_str ex_str_of_id ex_fid w' = Ok info
    ∧ FileListResponse.status info = DELETED
    ∧ FileListResponse.filename info = u "cat.png"
    ∧ get_file ex_oid_of_str ex_fid Opened [] w' = Ok resp
    ∧ StreamingResponse.body resp = GridOut.chunks ex_blob.
Proof.
  destruct (soft_delete_keeps_record_and_blob ex_oid_of_str ex_str_of_id
              ex_fid ex_oid ex_world 0%nat ex_doc false)
    as (d' & w' & info & Hdel & _ & _ & _ & _ & _ & _ & Hinfo & Hst & _ & Hn
        & _ & _ & _ & _ & _ & _ & _ & Hget);
    [reflexivity..|].
  destruct (Hget ex_blob []) as (resp & Hr & Hbody & _);
    [reflexivity|by eexists|reflexivity|].
  exists w', info, resp. split; [exact Hdel|]. split; [exact Hinfo|].
  split; [exact Hst|]. split; [exact Hn|]. split; [exact Hr|exact Hbody].
Defined.

Lemma permanent_delete_removes_record_witness :
  ∃ w',
    delete_file ex_oid_of_str ex_fid true true ex_world
    = (Ok [(u "message", u "File permanently deleted"); (u "file_id", ex_fid)],
       w')
    ∧ calls w' = [BucketDelete ex_oid true; DocDelete 0]
    ∧ get_file_info ex_oid_of_str ex_str_of_id ex_fid w'
      = HTTPException 404 (u "File not found").
Proof.
  destruct (permanent_delete_removes_record ex_oid_of_str ex_str_of_id
              ex_fid ex_oid ex_world 0%nat ex_doc true)
    as (w' & raised & Hdel & Hr & Hcalls & _ & _ & _ & _ & Hinfo).
  - reflexivity.
  - reflexivity.
  - exists w'. split; [exact Hdel|]. split.
    + rewrite Hcalls, Hr. reflexivity.
    + apply Hinfo. apply NoDup_singleton.
Defined.

Lemma update_file_null_is_absent_witness :
  update_file ex_oid_of_str ex_str_of_id ex_fid
    (UpdateBody.mk Null Null Null) ex_world
  = update_file ex_oid_of_str ex_str_of_id ex_fid
      (UpdateBody.mk Absent Absent Absent) ex_world.
Proof.
  apply (update_file_null_is_absent ex_oid_of_str ex_str_of_id ex_fid
           (UpdateBody.mk Null Null Null) ex_world 0%nat ex_doc).
  reflexivity.
Defined.

(** The tag parameter [","] leaves no tag, and the listing answers with a
    document all the same. *)
Lemma list_files_tags_comma_lists_all :
  parse_tags (u ",") = []
  ∧ ¬ has_tag_in (parse_tags (u ",")) ex_doc
  ∧ ∃ r,
      list_files ex_str_of_id None None None (Some (u ",")) None None ex_world
      = Some (Ok [r])
      ∧ FileListResponse.tags r = GridFSFile.tags ex_doc.
Proof.
  split; [reflexivity|]. split.
  - intros (t & _ & Ht). by apply elem_of_nil in Ht.
  - eexists. split; reflexivity.
Qed.

Lemma list_files_tags_filter_witness :
  ∃ files,
    find (build_filter_query None None None (Some (u "q, x")))
      (collection ex_world) = Some files
    ∧ ∀ id d, (id, d) ∈ files ↔ (id, d) ∈ [(0%nat, ex_doc)] ∧ has_tag_in [u "q"; u "x"] d.
Proof.
  destruct (list_files_tags_filter ex_str_of_id None None None None (u "q, x")
              None 50%Z None 0%Z ex_world [(0%nat, ex_doc)])
    as (files & Hfind & _ & _ & Hiff); [reflexivity..|].
  exists files. split; [exact Hfind|]. apply Hiff. discriminate.
Defined.



(** ** Further lemmas on the stores, the queries and the encodings *)

Lemma find_one_from_app_fresh fid i c d :
  fid ∉ file_ids c →
  GridFSFile.file_id d = fid →
  find_one_from fid i (c ++ [Some d]) = Some ((i + length c)%nat, d).
Proof.
  revert i. induction c as [|[d0|] c IH]; intros i Hn Hid; simpl.
  - apply (proj2 (str_eqb_eq _ _)) in Hid. by rewrite Hid, Nat.add_0_r.
  - unfold file_ids in Hn. simpl in Hn. apply not_elem_of_cons in Hn as [Hne Hn].
    destruct (str_eqb (GridFSFile.file_id d0) fid) eqn:E.
    + apply str_eqb_eq in E. congruence.
    + rewrite IH by done. f_equal. f_equal. lia.
  - rewrite IH by done. f_equal. f_equal. lia.
Qed.

Lemma chunks_aux_concat size cur room l :
  concat (chunks_aux size cur room l) = rev cur ++ l.
Proof.
  revert cur room. induction l as [|b l IH]; intros cur room; simpl.
  - destruct cur; [done|]. simpl. by rewrite !app_nil_r.
  - destruct (room =? 0); simpl; rewrite IH; simpl; [done|].
    by rewrite <- app_assoc.
Qed.

Lemma chunks_aux_nonempty size cur room l :
  (room = 0 → cur ≠ []) →
  Forall (fun chunk => chunk ≠ []) (chunks_aux size cur room l).
Proof.
  revert cur room. induction l as [|b l IH]; intros cur room Hinv; simpl.
  - destruct cur as [|x cur]; [done|]. apply Forall_singleton.
    intros E. apply (f_equal length) in E. rewrite length_rev in E. done.
  - destruct (N.eqb_spec room 0) as [E|E].
    + apply Forall_cons. split.
      * specialize (Hinv E). intros E'. apply (f_equal length) in E'.
        rewrite length_rev in E'. by destruct cur.
      * by apply IH.
    + by apply IH.
Qed.

Lemma stream_file_all chunks ds :
  Forall (fun chunk => chunk ≠ []) chunks →
  Forall (fun answer => answer = false) ds →
  stream_file chunks ds = chunks.
Proof.
  revert ds. induction chunks as [|c chunks IH]; intros ds Hc Hd; [done|].
  apply Forall_cons in Hc as [Hne Hc]. simpl.
  destruct c as [|x c]; [done|]. f_equal.
  destruct ds as [|[] ds].
  - by apply IH.
  - by apply Forall_cons in Hd as [? _].
  - apply Forall_cons in Hd as [_ Hd]. by apply IH.
Qed.

Lemma content_disposition_scalars filename :
  forallb is_scalar filename = true → is_Some (content_disposition filename).
Proof.
  intros Hs. unfold content_disposition, encode_ascii.
  destruct (forallb is_ascii filename); [done|].
  destruct (encode_utf8_scalars _ Hs) as (bs & -> & _). done.
Qed.

(** A document matches the query built from the parameters exactly when it
    passes the owner, content type and tag parameters and has the status
    asked for. *)
Lemma doc_matches_passes owner_id st content_type tags d re :
  compile_condition
    (FilterQuery.content_type
       (build_filter_query owner_id st content_type tags)) = Some re →
  doc_matches (build_filter_query owner_id st content_type tags) re d
  = Some true
  ↔ passes owner_id content_type tags d
    ∧ ∀ v, st = Some v → GridFSFile.status d = v.
Proof.
  intros Hre. unfold doc_matches, build_filter_query, passes in *. simpl in *.
  set (subject := GridFSFile.content_type d).
  assert (match re with
          | Some (r, caseless) =>
              if forallb is_ascii subject
              then Some (Regex.match_here caseless r subject) else None
          | None => Some true
          end = Some true
          ↔ truthy content_type = None
            ∨ ∃ ct, content_type = Some ct
                ∧ Regex.search (u "^" ++ ct) (u "i") subject = Some true)
    as Hc.
  { destruct (truthy content_type) as [x|] eqn:Hx.
    - apply truthy_Some in Hx as [-> _]. unfold Regex.search.
      simpl in Hre |- *.
      destruct (Regex.compile x) as [r|] eqn:Hcx; simpl in Hre; [|done].
      simplify_eq. destruct (forallb is_ascii subject); simpl.
      + split.
        * intros E. right. exists x. split; [done|]. by rewrite Hcx.
        * intros [|(ct & ? & E)]; simplify_eq. by rewrite Hcx in E.
      + split; [done|]. by intros [|(ct & ? & ?)].
    - simpl in Hre. simplify_eq. split; [by left|done]. }
  assert (match truthy owner_id with
          | Some o => bool_decide (GridFSFile.owner_id d = Some o)
          | None => true
          end = true
          ↔ truthy owner_id = None ∨ GridFSFile.owner_id d = owner_id) as Ho.
  { destruct (truthy owner_id) as [o|] eqn:Hx; [|split; [by left|done]].
    apply truthy_Some in Hx as [-> _]. rewrite bool_decide_eq_true.
    split; [by right|]. by intros [|]. }
  assert (match
            match truthy tags with
            | Some ts => match parse_tags ts with
                         | [] => None
                         | t :: l => Some (t :: l)
                         end
            | None => None
            end
          with
          | Some l => existsb (fun t => bool_decide (t ∈ l)) (GridFSFile.tags d)
          | None => true
          end = true
          ↔ truthy tags = None
            ∨ ∃ ts, tags = Some ts
                ∧ (parse_tags ts = [] ∨ has_tag_in (parse_tags ts) d)) as Ht.
  { destruct (truthy tags) as [x|] eqn:Hx; [|split; [by left|done]].
    apply truthy_Some in Hx as [-> _].
    destruct (parse_tags x) as [|t tl] eqn:Hp.
    - split; [|done]. intros _. right. exists x. split; [done|by left].
    - rewrite existsb_has_tag. split.
      + intros Hh. right. exists x. split; [done|]. right. by rewrite Hp.
      + intros [E|(ts & ? & [E|Hh])]; simplify_eq.
        * congruence.
        * by rewrite Hp in Hh. }
  assert (match st with
          | Some s => bool_decide (GridFSFile.status d = s)
          | None => true
          end = true ↔ ∀ v, st = Some v → GridFSFile.status d = v) as Hs.
  { destruct st as [s|]; [|split; [by intros|done]].
    rewrite bool_decide_eq_true. split; [by intros ? ? [= <-]|]. intros E.
    by apply E. }
  rewrite <- Hc, <- Ho, <- Ht, <- Hs.
  destruct (match re with Some _ => _ | None => _ end) as [b|]; simpl.
  - split.
    + intros E. injection E as E. rewrite !andb_true_iff in E.
      destruct E as [[[Eo Es] Ec] Et]. repeat split; congruence.
    + intros ((Eo & Ec & Et) & Es). injection Ec as ->. f_equal.
      rewrite !andb_true_iff. by repeat split.
  - split; [done|]. by intros ((?&?&?)&?).
Qed.

Lemma find_from_sorted q re i c files :
  find_from q re i c = Some files →
  StronglySorted lt (files.*1) ∧ Forall (fun id => (i ≤ id)%nat) (files.*1).
Proof.
  revert i files. induction c as [|[d0|] c IH]; intros i files Hf; simpl in Hf.
  - simplify_eq. split; constructor.
  - destruct (doc_matches q re d0) as [m|]; [|done]. simpl in Hf.
    destruct (find_from q re (S i) c) as [rest|] eqn:Hr; [|done].
    simpl in Hf. simplify_eq. destruct (IH _ _ Hr) as [Hs Hge].
    destruct m; simpl.
    + split.
      * constructor; [done|]. eapply Forall_impl; [exact Hge|]. simpl. lia.
      * constructor; [lia|]. eapply Forall_impl; [exact Hge|]. simpl. lia.
    + split; [done|]. eapply Forall_impl; [exact Hge|]. simpl. lia.
  - destruct (IH _ _ Hf) as [Hs Hge]. split; [done|].
    eapply Forall_impl; [exact Hge|]. simpl. lia.
Qed.

(** On ASCII content types every query with a pattern that compiles is within
    the model. *)
Lemma find_from_defined q re i c :
  (∀ k d, c !! k = Some (Some d) →
          forallb is_ascii (GridFSFile.content_type d) = true) →
  is_Some (find_from q re i c).
Proof.
  revert i. induction c as [|[d0|] c IH]; intros i Ha; simpl; [done| |].
  - unfold doc_matches. rewrite (Ha 0%nat d0 eq_refl).
    destruct (IH (S i)) as [rest ->]; [intros k d; apply (Ha (S k))|].
    by destruct re as [[??]|].
  - apply IH. intros k d. apply (Ha (S k)).
Qed.

Lemma FileStatus_of_value_Some v s :
  FileStatus_of_value v = Some s ↔ v = FileStatus_value s.
Proof.
  split.
  - intros E. apply find_some in E as [_ E]. by apply str_eqb_eq in E.
  - intros ->. by destruct s.
Qed.

Lemma filter_all {A} (P : A → Prop) `{∀ x, Decision (P x)} (l : list A) :
  Forall P l → filter P l = l.
Proof.
  induction 1 as [|x l Hx Hl IH]; [done|].
  by rewrite filter_cons_True, IH.
Qed.

(** Deleting a document takes its entry, and nothing else, out of what a query
    selects. *)
Lemma find_from_delete q re i c k files :
  find_from q re i c = Some files →
  find_from q re i (<[k := None]> c)
  = Some (filter (fun p => p.1 ≠ (i + k)%nat) files).
Proof.
  revert i k files. induction c as [|[d0|] c IH]; intros i k files Hf;
    simpl in Hf.
  - simplify_eq. by destruct k.
  - destruct (doc_matches q re d0) as [m|] eqn:Hm; [|done]. simpl in Hf.
    destruct (find_from q re (S i) c) as [rest|] eqn:Hr; [|done].
    simpl in Hf. simplify_eq. destruct k as [|k]; simpl.
    + rewrite Hr. f_equal.
      assert (filter (fun p : nat * GridFSFile.t => p.1 ≠ (i + 0)%nat) rest
              = rest) as Hrest.
      { apply filter_all. destruct (find_from_sorted _ _ _ _ _ Hr) as [_ Hge].
        rewrite Forall_fmap in Hge. eapply Forall_impl; [exact Hge|].
        simpl. lia. }
      destruct m; [|done].
      rewrite filter_cons_False by (simpl; lia). done.
    + rewrite Hm. simpl. rewrite (IH (S i) k rest Hr). simpl.
      replace (i + S k)%nat with (S (i + k)) by lia.
      destruct m; [|done]. by rewrite filter_cons_True by (simpl; lia).
  - destruct k as [|k]; simpl.
    + rewrite Hf. f_equal. symmetry. apply filter_all.
      destruct (find_from_sorted _ _ _ _ _ Hf) as [_ Hge].
      rewrite Forall_fmap in Hge. eapply Forall_impl; [exact Hge|]. simpl. lia.
    + rewrite (IH (S i) k files Hf). simpl.
      by replace (i + S k)%nat with (S (i + k)) by lia.
Qed.

Lemma lstrip_decompose s :
  ∃ pre, s = pre ++ lstrip s
         ∧ ∀ c, head (lstrip s) = Some c → is_space c = false.
Proof.
  induction s as [|c s (pre & IH & Hh)]; simpl.
  - exists []. by split.
  - destruct (is_space c) eqn:E.
    + exists (c :: pre). split; [simpl; by f_equal|done].
    + exists []. split; [done|]. simpl. by intros ? [= <-].
Qed.

Lemma rstrip_decompose s :
  ∃ post, s = rstrip s ++ post
          ∧ ∀ c, last (rstrip s) = Some c → is_space c = false.
Proof.
  unfold rstrip. destruct (lstrip_decompose (rev s)) as (pre & E & Hh).
  exists (rev pre). split.
  - rewrite <- rev_app_distr, <- E. by rewrite rev_involutive.
  - intros c. rewrite rev_alt. change (rev_append ?l []) with (reverse l).
    rewrite last_reverse. apply Hh.
Qed.

(** What [strip] answers is a piece of its argument with no white space at
    either end. *)
Lemma strip_decompose s :
  ∃ pre post,
    s = pre ++ strip s ++ post
    ∧ (∀ c, head (strip s) = Some c → is_space c = false)
    ∧ (∀ c, last (strip s) = Some c → is_space c = false).
Proof.
  unfold strip. destruct (lstrip_decompose s) as (pre & E1 & Hh).
  destruct (rstrip_decompose (lstrip s)) as (post & E2 & Hl).
  exists pre, post. split; [by rewrite <- E2|]. split; [|done].
  intros c Hc. apply Hh. rewrite E2.
  destruct (rstrip (lstrip s)); [done|]. done.
Qed.

Lemma split_pieces sep s piece : piece ∈ split sep s → sep ∉ piece.
Proof.
  revert piece. induction s as [|c s IH]; intros piece; simpl.
  - intros ->%list_elem_of_singleton. apply not_elem_of_nil.
  - destruct (N.eqb_spec c sep) as [E|E].
    + intros [->|Hin]%elem_of_cons; [apply not_elem_of_nil|by apply IH].
    + destruct (split sep s) as [|h t] eqn:Hs.
      * intros ->%list_elem_of_singleton.
        intros [?|?%elem_of_nil]%elem_of_cons; [congruence|done].
      * intros [->|Hin]%elem_of_cons.
        -- intros [?|Hh]%elem_of_cons; [congruence|].
           apply (IH h); [by left|done].
        -- apply IH. by right.
Qed.

(** X16.  A tag out of [parse_tags] is not empty, holds no comma, and neither
    starts nor ends with white space. *)
Theorem parse_tags_are_clean tags t :
  t ∈ parse_tags tags →
  t ≠ []
  ∧ (comma ∉ t)
  ∧ (∃ c, head t = Some c ∧ is_space c = false)
  ∧ (∃ c, last t = Some c ∧ is_space c = false).
Proof.
  unfold parse_tags. intros (piece & Hin & Ht)%list_elem_of_omap.
  destruct (strip piece) as [|x t'] eqn:Hs; [done|]. simplify_eq.
  destruct (strip_decompose piece) as (pre & post & E & Hh & Hl).
  rewrite Hs in E, Hh, Hl. split; [done|]. split.
  - intros Hc. apply (split_pieces _ _ _ Hin). rewrite E.
    rewrite !elem_of_app. by right; left.
  - split.
    + exists x. split; [done|]. by apply Hh.
    + destruct (last (x :: t')) as [c|] eqn:E'.
      * exists c. split; [done|]. by apply Hl.
      * by apply last_None in E'.
Qed.

Lemma always_safe_ascii b : always_safe b = true → is_ascii b = true.
Proof.
  unfold always_safe, is_alnum, is_ascii. intros Hs. apply N.ltb_lt.
  repeat (apply orb_true_iff in Hs as [Hs|Hs]);
    try (apply andb_true_iff in Hs as [H1 H2]; apply N.leb_le in H1, H2);
    try apply N.eqb_eq in Hs; lia.
Qed.

Lemma quote_ascii bs :
  Forall (fun b => b < 256) bs → forallb is_ascii (quote bs) = true.
Proof.
  induction bs as [|b bs IH]; [done|]. intros [Hb Hbs]%Forall_cons.
  rewrite quote_cons. unfold quote_byte.
  rewrite forallb_app, (IH Hbs), andb_true_r.
  destruct (always_safe b) eqn:Hs; simpl.
  - by rewrite (always_safe_ascii b Hs).
  - destruct (N.eqb_spec b slash) as [->|]; [done|]. simpl.
    unfold hex_digit, is_ascii.
    assert (b / 16 < 16 ∧ b mod 16 < 16) as [? ?] by div_lia.
    rewrite !andb_true_iff. repeat split; try done;
      apply N.ltb_lt; destruct (_ <? 10); lia.
Qed.

(** X17.  Whatever the stored name, the [Content-Disposition] value is ASCII
    text. *)
Theorem content_disposition_is_ascii filename cd :
  content_disposition filename = Some cd → forallb is_ascii cd = true.
Proof.
  unfold content_disposition, encode_ascii.
  destruct (forallb is_ascii filename) eqn:Ha.
  - intros E.
    assert (cd = u "attachment; filename=" ++ filename) as ->
      by (unfold decode_ascii in E; congruence).
    rewrite forallb_app, Ha. by vm_compute.
  - destruct (encode_utf8 filename) as [bs|] eqn:Hb; [|done]. intros E.
    assert (cd = u "attachment; filename*=UTF-8''" ++ quote bs) as ->
      by (change (Some (u "attachment; filename*=UTF-8''" ++ quote bs)
                  = Some cd) in E; congruence).
    rewrite forallb_app. apply andb_true_iff. split; [by vm_compute|].
    apply quote_ascii. clear Ha E. revert bs Hb.
    induction filename as [|c s IH]; simpl; intros bs Hb.
    + by simplify_eq.
    + destruct (utf8_char c) as [b|] eqn:Hu; [|done].
      destruct (encode_utf8 s) as [bs'|]; [|done]. simplify_eq.
      apply Forall_app. split; [|by apply IH].
      by apply (utf8_char_bytes c b Hu).
Qed.

(** X18.  Each member of [FileStatus] is read back from its value, and no two
    members have the same value. *)
Theorem FileStatus_value_round_trip s s' :
  FileStatus_of_value (FileStatus_value s) = Some s
  ∧ (FileStatus_value s = FileStatus_value s' → s = s').
Proof.
  split; [by destruct s|]. by destruct s, s'.
Qed.

(** X4.  The chunks a download sends are the first chunks of the stored file,
    in order; once [is_disconnected] has answered true after the chunk of rank
    [k], no chunk beyond that one is sent. *)
Theorem stream_file_sends_a_prefix chunks disconnected :
  stream_file chunks disconnected `prefix_of` chunks
  ∧ ∀ k, disconnected !! k = Some true →
         (length (stream_file chunks disconnected) ≤ S k)%nat.
Proof.
  split.
  - revert disconnected. induction chunks as [|c chunks IH]; intros ds; [done|].
    simpl. destruct c as [|x c]; [apply prefix_nil|].
    apply prefix_cons. destruct ds as [|[] ds]; [apply IH|apply prefix_nil|apply IH].
  - revert disconnected. induction chunks as [|c chunks IH]; intros ds k Hk;
      simpl; [lia|].
    destruct c as [|x c]; simpl; [lia|].
    destruct ds as [|[] ds]; [done|simpl; lia|].
    destruct k as [|k]; [done|]. simpl in Hk. specialize (IH ds k Hk). lia.
Qed.

(** ** How the handlers compose *)

Section Composition.

Context {ObjectId : Type} `{Countable ObjectId}.
Variable ObjectId_of_str : str → option ObjectId.
Variable str_of_ObjectId : ObjectId → str.
Variable str_of_id : nat → str.
Implicit Types (w : World ObjectId) (d : GridFSFile.t) (fid : str).

Local Abbreviation resp :=
  (fun '(id, file_doc) => to_response (str_of_id id) file_doc).

(** X1.  A valid upload whose new identifier is the [file_id] of no document
    yet answers with that identifier, the measured size and [active]; it
    calls the bucket first and the collection second, and leaves every
    document there was in its place.  [get_file_info] of the answered id then
    answers the new document: the name of the upload (or [unnamed_file]), its
    content type, the clock reading, the size, [active], the owner, the parsed
    tags and the description. *)
Theorem upload_file_then_get_file_info
    file ct owner_id tags description new_oid now w :
  UploadFile.content_type file = Some ct →
  startswith_any ct [u "image/"; u "video/"] = true →
  ObjectId_is_valid ObjectId_of_str (str_of_ObjectId new_oid) = true →
  str_of_ObjectId new_oid ∉ file_ids (collection w) →
  ∃ r w' info,
    upload_file str_of_ObjectId file owner_id tags description new_oid now w
    = (Ok r, w')
    ∧ calls w' = calls w ++ [UploadFromStream new_oid;
                             DocInsert (length (collection w))]
    ∧ (∀ id, (id < length (collection w))%nat →
             collection w' !! id = collection w !! id)
    ∧ FileUploadResponse.file_id r = str_of_ObjectId new_oid
    ∧ FileUploadResponse.filename r
      = match truthy (UploadFile.filename file) with
        | Some f => f
        | None => u "unnamed_file"
        end
    ∧ FileUploadResponse.file_size r = N.of_nat (length (UploadFile.file file))
    ∧ FileUploadResponse.status r = u "active"
    ∧ get_file_info ObjectId_of_str str_of_id (FileUploadResponse.file_id r) w'
      = Ok info
    ∧ FileListResponse.id info = str_of_id (length (collection w))
    ∧ FileListResponse.filename info = FileUploadResponse.filename r
    ∧ FileListResponse.content_type info = Some ct
    ∧ FileListResponse.upload_date info = now
    ∧ FileListResponse.file_size info
      = Some (N.of_nat (length (UploadFile.file file)))
    ∧ FileListResponse.status info = ACTIVE
    ∧ FileListResponse.owner_id info = owner_id
    ∧ FileListResponse.tags info
      = match truthy tags with Some ts => parse_tags ts | None => [] end
    ∧ FileListResponse.description info = description.
Proof.
  intros Hct Hsw Hvalid Hfresh. unfold upload_file. rewrite Hct.
  destruct ct as [|c ct]; [discriminate|]. simpl truthy. cbv iota.
  rewrite Hsw. simpl negb. cbv iota.
  eexists _, _, _. split; [reflexivity|].
  split. { simpl. by rewrite <- app_assoc. }
  split. { intros id Hid. simpl. by rewrite lookup_app_l. }
  do 4 (split; [reflexivity|]). split.
  { unfold get_file_info. simpl FileUploadResponse.file_id.
    rewrite Hvalid. simpl negb. cbv iota. simpl collection.
    unfold find_one. rewrite find_one_from_app_fresh; [reflexivity|done|done]. }
  repeat split.
Qed.

(** X2.  After a valid upload, a download of the answered id whose stream
    opens and whose client stays connected sends chunks that, put together,
    are the payload; the media type is the content type of the upload, the
    content length its size, and the file is named as the upload answered.
    That is for a content type a header can carry, as every content type
    read from a request is; with a character beyond U+00FF in it the
    download answers status 500. *)
Theorem upload_file_then_get_file
    file ct owner_id tags description new_oid now w disconnected :
  UploadFile.content_type file = Some ct →
  startswith_any ct [u "image/"; u "video/"] = true →
  ObjectId_of_str (str_of_ObjectId new_oid) = Some new_oid →
  forallb is_scalar (default [] (UploadFile.filename file)) = true →
  Forall (fun answer => answer = false) disconnected →
  ∃ r w' cd,
    upload_file str_of_ObjectId file owner_id tags description new_oid now w
    = (Ok r, w')
    ∧ content_disposition (FileUploadResponse.filename r) = Some cd
    ∧ (forallb is_latin1 ct = true →
       ∃ resp,
         get_file ObjectId_of_str (FileUploadResponse.file_id r) Opened
           disconnected w' = Ok resp
         ∧ concat (StreamingResponse.body resp) = UploadFile.file file
         ∧ StreamingResponse.media_type resp = JStr ct
         ∧ header (u "Content-Length") (StreamingResponse.headers resp)
           = Some (str_of_N (N.of_nat (length (UploadFile.file file))))
         ∧ header (u "Content-Disposition") (StreamingResponse.headers resp)
           = Some cd)
    ∧ (forallb is_latin1 ct = false →
       get_file ObjectId_of_str (FileUploadResponse.file_id r) Opened
         disconnected w' = HTTPException 500 (u "Internal Server Error")).
Proof.
  intros Hct Hsw Hoid Hsc Hd. unfold upload_file. rewrite Hct.
  destruct ct as [|c ct]; [discriminate|]. simpl truthy. cbv iota.
  rewrite Hsw. simpl negb. cbv iota.
  set (filename := match truthy (UploadFile.filename file) with
                   | Some f => f
                   | None => u "unnamed_file"
                   end).
  assert (filename ≠ []) as Hne.
  { unfold filename. by destruct (UploadFile.filename file) as [[|??]|]. }
  assert (is_Some (content_disposition filename)) as [cd Hcd].
  { apply content_disposition_scalars. unfold filename.
    by destruct (UploadFile.filename file) as [[|??]|]. }
  eexists _, _, cd. split; [reflexivity|]. split; [exact Hcd|].
  unfold get_file. simpl FileUploadResponse.file_id. rewrite Hoid.
  simpl bucket. rewrite lookup_insert_eq. simpl GridOut.filename.
  assert (str_or filename (u "file") = filename) as ->.
  { by destruct filename. }
  rewrite Hcd. unfold stored_content_type. simpl GridOut.metadata. cbv iota.
  rewrite bool_decide_eq_false_2 by apply insert_non_empty.
  simpl list_to_map. rewrite lookup_insert_eq. simpl default.
  unfold media_type_ok. split; intros ->; [|done].
  eexists. split; [reflexivity|]. simpl. repeat split; try done.
  rewrite stream_file_all; [|by apply chunks_aux_nonempty|done].
  unfold chunks_of. by rewrite chunks_aux_concat.
Qed.

(** What an update that finds its document comes to. *)
Lemma update_file_found fid body req w id d :
  FileUpdateRequest_validate body = Some req →
  ObjectId_is_valid ObjectId_of_str fid = true →
  find_one fid (collection w) = Some (id, d) →
  (update_dict req = (None, None, None)
   ∧ update_file ObjectId_of_str str_of_id fid body w
     = (Ok (to_response (str_of_id id) d), w))
  ∨ (update_dict req ≠ (None, None, None)
     ∧ update_file ObjectId_of_str str_of_id fid body w
       = (HTTPException 500 (u "Internal Server Error"),
          mkWorld (bucket w)
            (<[id := Some (apply_set (update_dict req) d)]> (collection w))
            (calls w ++ [DocUpdate id]))).
Proof.
  intros Hv Hid Hf. destruct (find_one_Some _ _ _ _ Hf) as [Hl Hfid].
  unfold update_file. rewrite Hv, Hid, Hf. simpl negb. cbv iota.
  destruct req as [[s|] [t|] [de|]]; unfold update_dict, doc_update;
    cbn [FileUpdateRequest.status FileUpdateRequest.tags
         FileUpdateRequest.description]; cbv zeta; rewrite ?Hl;
    first [by left | by right].
Qed.

Lemma update_file_not_found fid body w :
  FileUpdateRequest_validate body = None
  ∨ ObjectId_is_valid ObjectId_of_str fid = false
  ∨ find_one fid (collection w) = None →
  ∃ r, update_file ObjectId_of_str str_of_id fid body w = (r, w)
       ∧ (∀ a, r ≠ Ok a)
       ∧ r ≠ HTTPException 500 (u "Internal Server Error").
Proof.
  unfold update_file. intros Hcase.
  destruct (FileUpdateRequest_validate body) as [req|]; [|by eexists].
  destruct (ObjectId_is_valid ObjectId_of_str fid); [|by eexists]. simpl.
  destruct (find_one fid (collection w)) as [[id d]|]; [|by eexists].
  by destruct Hcase as [|[|]].
Qed.

Lemma update_file_cases fid body w :
  (∃ r, update_file ObjectId_of_str str_of_id fid body w = (r, w)
        ∧ r ≠ HTTPException 500 (u "Internal Server Error"))
  ∨ ∃ id d upd,
      find_one fid (collection w) = Some (id, d)
      ∧ ObjectId_is_valid ObjectId_of_str fid = true
      ∧ upd ≠ (None, None, None)
      ∧ update_file ObjectId_of_str str_of_id fid body w
        = (HTTPException 500 (u "Internal Server Error"),
           mkWorld (bucket w) (<[id := Some (apply_set upd d)]> (collection w))
             (calls w ++ [DocUpdate id])).
Proof.
  destruct (FileUpdateRequest_validate body) as [req|] eqn:Hv.
  2: { left. destruct (update_file_not_found fid body w) as (r & -> & _ & ?);
         [by left|by eexists]. }
  destruct (ObjectId_is_valid ObjectId_of_str fid) eqn:Hid.
  2: { left. destruct (update_file_not_found fid body w) as (r & -> & _ & ?);
         [by right; left|by eexists]. }
  destruct (find_one fid (collection w)) as [[id d]|] eqn:Hf.
  2: { left. destruct (update_file_not_found fid body w) as (r & -> & _ & ?);
         [by right; right|by eexists]. }
  destruct (update_file_found fid body req w id d Hv Hid Hf)
    as [[_ ->]|[Hne ->]].
  - left. by eexists.
  - right. by exists id, d, (update_dict req).
Qed.

Lemma delete_file_cases fid permanent fault w :
  (∃ r, delete_file ObjectId_of_str fid permanent fault w = (r, w)
        ∧ ∀ a, r ≠ Ok a)
  ∨ ∃ oid id d r,
      ObjectId_of_str fid = Some oid
      ∧ find_one fid (collection w) = Some (id, d)
      ∧ delete_file ObjectId_of_str fid permanent fault w
        = (Ok r,
           if permanent
           then doc_delete id (bucket_delete oid fault w).2
           else doc_update id (GridFSFile.set_status DELETED) w).
Proof.
  unfold delete_file.
  destruct (ObjectId_of_str fid) as [oid|]; [|left; by eexists].
  destruct (find_one fid (collection w)) as [[id d]|]; [|left; by eexists].
  right. exists oid, id, d. destruct permanent.
  - destruct (bucket_delete oid fault w) as [raised w1]. by eexists.
  - by eexists.
Qed.

Lemma bucket_delete_collection oid fault w :
  collection (bucket_delete oid fault w).2 = collection w.
Proof. unfold bucket_delete. by destruct fault, (bucket w !! oid). Qed.


(** X6.  After an update of an existing document, whatever the update
    answered, [get_file_info] answers that document with the fields of the
    request in place and every other field as it was; and when the update
    answered with a document, [get_file_info] answers the same. *)
Theorem update_file_then_get_file_info fid body req w id d :
  FileUpdateRequest_validate body = Some req →
  ObjectId_is_valid ObjectId_of_str fid = true →
  find_one fid (collection w) = Some (id, d) →
  ∃ info,
    get_file_info ObjectId_of_str str_of_id fid
      (update_file ObjectId_of_str str_of_id fid body w).2 = Ok info
    ∧ FileListResponse.id info = str_of_id id
    ∧ FileListResponse.status info
      = default (GridFSFile.status d) (FileUpdateRequest.status req)
    ∧ FileListResponse.tags info
      = default (GridFSFile.tags d) (FileUpdateRequest.tags req)
    ∧ FileListResponse.description info
      = match FileUpdateRequest.description req with
        | Some v => Some v
        | None => GridFSFile.description d
        end
    ∧ FileListResponse.filename info = GridFSFile.filename d
    ∧ FileListResponse.content_type info = Some (GridFSFile.content_type d)
    ∧ FileListResponse.upload_date info = GridFSFile.upload_date d
    ∧ FileListResponse.file_size info = GridFSFile.file_size d
    ∧ FileListResponse.owner_id info = GridFSFile.owner_id d
    ∧ (∀ r, (update_file ObjectId_of_str str_of_id fid body w).1 = Ok r →
            r = info).
Proof.
  intros Hv Hid Hf. unfold get_file_info. rewrite Hid. simpl negb. cbv iota.
  destruct (update_file_found fid body req w id d Hv Hid Hf)
    as [[Hu ->]|[Hu ->]]; cbn [fst snd collection].
  - rewrite Hf. eexists. split; [reflexivity|].
    destruct req as [[s|] [t|] [de|]]; try discriminate Hu.
    repeat split. intros r E. by simplify_eq.
  - rewrite (find_one_insert fid _ id d (apply_set (update_dict req) d) Hf).
    2: { rewrite apply_set_file_id. by apply (find_one_Some _ _ _ _ Hf). }
    eexists. split; [reflexivity|].
    destruct req as [[s|] [t|] [de|]]; repeat split; intros r E; discriminate E.
Qed.

(** X8.  After a permanent delete whose bucket call did not fail, a download
    of the id answers 404.  After one whose bucket call failed, a download
    answers what it answered before: the stored file stays although its
    document is gone. *)
Theorem permanent_delete_then_get_file fid oid w id d opening disconnected :
  ObjectId_of_str fid = Some oid →
  find_one fid (collection w) = Some (id, d) →
  get_file ObjectId_of_str fid opening disconnected
    (delete_file ObjectId_of_str fid true false w).2
  = HTTPException 404 (u "File Not Found in GridFS")
  ∧ get_file ObjectId_of_str fid opening disconnected
      (delete_file ObjectId_of_str fid true true w).2
    = get_file ObjectId_of_str fid opening disconnected w.
Proof.
  intros Ho Hf. unfold delete_file. rewrite Ho, Hf. cbv iota. split.
  - unfold get_file. rewrite Ho. unfold bucket_delete.
    destruct (bucket w !! oid) eqn:Hb; simpl.
    + by rewrite lookup_delete_eq.
    + by rewrite Hb.
  - apply get_file_bucket. unfold bucket_delete. by destruct (bucket w !! oid).
Qed.

(** X7.  A second soft delete of the same id answers as the first and changes
    neither the collection nor the bucket. *)
Theorem soft_delete_twice fid oid w id d fault fault' :
  ObjectId_of_str fid = Some oid →
  find_one fid (collection w) = Some (id, d) →
  ∃ r w1 w2,
    delete_file ObjectId_of_str fid false fault w = (Ok r, w1)
    ∧ delete_file ObjectId_of_str fid false fault' w1 = (Ok r, w2)
    ∧ collection w2 = collection w1
    ∧ bucket w2 = bucket w.
Proof.
  intros Ho Hf. destruct (find_one_Some _ _ _ _ Hf) as [Hl Hfid].
  destruct (doc_update_collection id (GridFSFile.set_status DELETED) w d Hl)
    as [Hc _].
  assert (find_one fid (collection (doc_update id (GridFSFile.set_status DELETED) w))
          = Some (id, GridFSFile.set_status DELETED d)) as Hf1.
  { rewrite Hc. by apply find_one_insert with (d := d). }
  eexists _, (doc_update id (GridFSFile.set_status DELETED) w),
    (doc_update id (GridFSFile.set_status DELETED)
       (doc_update id (GridFSFile.set_status DELETED) w)).
  split. { unfold delete_file. rewrite Ho, Hf. reflexivity. }
  split. { unfold delete_file. by rewrite Ho, Hf1. }
  split; [|done].
  destruct (find_one_Some _ _ _ _ Hf1) as [Hl1 _].
  destruct (doc_update_collection id (GridFSFile.set_status DELETED) _ _ Hl1)
    as [Hc1 _].
  rewrite Hc1, Hc. by rewrite list_insert_insert_eq.
Qed.

(** X10.  When no two documents share a [file_id], no update and no delete
    makes two of them share one, and neither does an upload whose new
    identifier is the [file_id] of no document yet. *)
Theorem handlers_keep_file_ids_distinct w :
  NoDup (file_ids (collection w)) →
  (∀ fid body,
     NoDup (file_ids (collection
                        (update_file ObjectId_of_str str_of_id fid body w).2)))
  ∧ (∀ fid permanent fault,
       NoDup (file_ids (collection
                          (delete_file ObjectId_of_str fid permanent fault w).2)))
  ∧ (∀ file owner_id tags description new_oid now,
       str_of_ObjectId new_oid ∉ file_ids (collection w) →
       NoDup (file_ids (collection
                          (upload_file str_of_ObjectId file owner_id tags
                             description new_oid now w).2))).
Proof.
  intros Hnd. split; [|split].
  - intros fid body.
    destruct (update_file_cases fid body w)
      as [(r & -> & _)|(id & d & upd & Hf & _ & _ & ->)]; [done|]. simpl.
    destruct (find_one_Some _ _ _ _ Hf) as [Hl _].
    rewrite (file_ids_insert_same _ id d); [done|done|apply apply_set_file_id].
  - intros fid permanent fault.
    destruct (delete_file_cases fid permanent fault w)
      as [(r & -> & _)|(oid & id & d & r & _ & Hf & ->)]; [done|].
    destruct (find_one_Some _ _ _ _ Hf) as [Hl _]. destruct permanent; simpl.
    + rewrite bucket_delete_collection. by apply file_ids_delete_NoDup.
    + rewrite Hl. by rewrite (file_ids_insert_same _ id d).
  - intros file owner_id tags description new_oid now Hfresh.
    unfold upload_file.
    destruct (truthy (UploadFile.content_type file)) as [ct|]; [|done].
    destruct (negb _); [done|]. simpl. by apply file_ids_append_NoDup.
Qed.

(** X11.  When every document has the content type of an image or of a
    video, so it is after any update, delete or upload. *)
Theorem handlers_keep_media_typed w :
  media_typed (collection w) →
  (∀ fid body,
     media_typed (collection
                    (update_file ObjectId_of_str str_of_id fid body w).2))
  ∧ (∀ fid permanent fault,
       media_typed (collection
                      (delete_file ObjectId_of_str fid permanent fault w).2))
  ∧ (∀ file owner_id tags description new_oid now,
       media_typed (collection
                      (upload_file str_of_ObjectId file owner_id tags
                         description new_oid now w).2)).
Proof.
  intros Hm. split; [|split].
  - intros fid body.
    destruct (update_file_cases fid body w)
      as [(r & -> & _)|(id & d & upd & Hf & _ & _ & ->)]; [done|]. simpl.
    destruct (find_one_Some _ _ _ _ Hf) as [Hl _]. intros j dj Hj.
    destruct (decide (j = id)) as [->|Hne].
    + rewrite list_lookup_insert_eq in Hj by (by eapply lookup_lt_Some).
      simplify_eq. destruct (apply_set_fixed upd d) as (_ & _ & _ & _ & -> & _).
      by apply (Hm id).
    + rewrite list_lookup_insert_ne in Hj by done. by apply (Hm j).
  - intros fid permanent fault.
    destruct (delete_file_cases fid permanent fault w)
      as [(r & -> & _)|(oid & id & d & r & _ & Hf & ->)]; [done|].
    destruct (find_one_Some _ _ _ _ Hf) as [Hl _]. intros j dj.
    destruct permanent; simpl.
    + rewrite bucket_delete_collection.
      destruct (decide (j = id)) as [->|Hne].
      * rewrite list_lookup_insert_eq by (by eapply lookup_lt_Some). done.
      * rewrite list_lookup_insert_ne by done. by apply (Hm j).
    + rewrite Hl. destruct (decide (j = id)) as [->|Hne].
      * rewrite list_lookup_insert_eq by (by eapply lookup_lt_Some).
        intros E. simplify_eq. exact (Hm id d Hl).
      * rewrite list_lookup_insert_ne by done. by apply (Hm j).
  - intros file owner_id tags description new_oid now. unfold upload_file.
    destruct (truthy (UploadFile.content_type file)) as [ct|]; [|done].
    destruct (startswith_any ct _) eqn:Hsw; [|done]. simpl.
    intros j dj Hj. apply lookup_app_Some in Hj as [Hj|[_ Hj]].
    + by apply (Hm j).
    + apply list_lookup_singleton_Some in Hj as [_ Hj]. by simplify_eq.
Qed.

(** X9.  After a permanent delete, every query selects what it selected
    before but for the deleted document. *)
Theorem permanent_delete_then_find fid oid w id d fault q files :
  ObjectId_of_str fid = Some oid →
  find_one fid (collection w) = Some (id, d) →
  find q (collection w) = Some files →
  find q (collection (delete_file ObjectId_of_str fid true fault w).2)
  = Some (filter (fun p => p.1 ≠ id) files).
Proof.
  intros Ho Hf Hfind. unfold delete_file. rewrite Ho, Hf. cbv iota.
  destruct (bucket_delete oid fault w) as [raised w1] eqn:Hbd. simpl.
  assert (collection w1 = collection w) as ->.
  { unfold bucket_delete in Hbd.
    destruct fault, (bucket w !! oid); by simplify_eq. }
  unfold find in *. destruct (compile_condition _) as [re|]; [|done].
  simpl in *. by rewrite (find_from_delete _ _ _ _ id _ Hfind).
Qed.

(** X3.  After a valid upload, a listing by the owner and the tags given to
    the upload (and no status or content type) selects the new document, and
    selects it last. *)
Theorem upload_file_then_list_files
    file ct owner_id tags description new_oid now limit skip w :
  UploadFile.content_type file = Some ct →
  startswith_any ct [u "image/"; u "video/"] = true →
  is_Some (Query_int 50 1 (Some 1000%Z) limit) →
  is_Some (Query_int 0 0 None skip) →
  ∃ r w' d files l s,
    upload_file str_of_ObjectId file owner_id tags description new_oid now w
    = (Ok r, w')
    ∧ collection w' = collection w ++ [Some d]
    ∧ Query_int 50 1 (Some 1000%Z) limit = Some l
    ∧ Query_int 0 0 None skip = Some s
    ∧ list_files str_of_id owner_id None None tags limit skip w'
      = Some (Ok (resp <$> cursor_limit l (cursor_skip s files)))
    ∧ last files = Some (length (collection w), d)
    ∧ GridFSFile.file_id d = FileUploadResponse.file_id r.
Proof.
  intros Hct Hsw [l Hl] [s Hs]. unfold upload_file. rewrite Hct.
  destruct ct as [|c ct]; [discriminate|]. simpl truthy. cbv iota.
  rewrite Hsw. simpl negb. cbv iota.
  set (d := GridFSFile.mk _ _ _ _ _ _ _ _ _ _).
  assert (compile_condition
            (FilterQuery.content_type
               (build_filter_query owner_id None None tags)) = Some None)
    as Hre by done.
  destruct (find_from_total (build_filter_query owner_id None None tags) 0
              (collection w ++ [Some d])) as [files Hfind].
  assert (passes owner_id None tags d) as Hp.
  { split; [by right|]. split; [by left|].
    destruct tags as [ts|]; [|by left]. right. exists ts. split; [done|].
    destruct (parse_tags ts) as [|t tl] eqn:Hpt; [by left|]. right.
    exists t. unfold d. simpl. destruct ts as [|x ts]; [done|]. simpl truthy.
    cbv iota. rewrite Hpt. split; by left. }
  assert ((length (collection w), d) ∈ files) as Hin.
  { apply (find_from_elem _ _ _ _ _ _ _ Hfind). exists (length (collection w)).
    split; [done|]. split.
    - rewrite lookup_app_r by done. by rewrite Nat.sub_diag.
    - apply (doc_matches_passes _ _ _ _ _ _ Hre). by split. }
  exists (FileUploadResponse.mk (str_of_ObjectId new_oid)
            (GridFSFile.filename d) (N.of_nat (length (UploadFile.file file)))
            (u "active") owner_id).
  eexists _, d, files, l, s. split; [reflexivity|]. split; [done|].
  split; [done|]. split; [done|]. split.
  { unfold list_files. rewrite Hl, Hs. simpl Query_status. cbv iota beta.
    unfold find. rewrite Hre. simpl collection. cbn [mbind option_bind].
    by rewrite Hfind. }
  split; [|done].
  destruct (find_from_sorted _ _ _ _ _ Hfind) as [Hsorted _].
  assert (∀ j dj, (j, dj) ∈ files → (j ≤ length (collection w))%nat) as Hb.
  { intros j dj Hj. apply (find_from_elem _ _ _ _ _ _ _ Hfind) in Hj
      as (k & -> & Hk & _). apply lookup_lt_Some in Hk.
    rewrite length_app in Hk. simpl in Hk. lia. }
  clear Hfind. destruct files as [|[j dj] files _] using rev_ind.
  { by apply elem_of_nil in Hin. }
  rewrite last_snoc. f_equal.
  apply elem_of_app in Hin as [Hin|Hin%list_elem_of_singleton]; [|done].
  exfalso. rewrite fmap_app in Hsorted.
  apply StronglySorted_app in Hsorted as (Hlt & _ & _).
  assert (length (collection w) < j)%nat as Hlt'.
  { apply Hlt; [|by left].
    by apply (list_elem_of_fmap_2 fst _ (length (collection w), d)). }
  assert (j ≤ length (collection w))%nat; [|lia].
  apply (Hb j dj). rewrite elem_of_app. right. by left.
Qed.

(** X12.  An answer of [list_files] is cut by [skip] and [limit] from the
    documents selected, which are exactly the documents of the collection
    that pass the owner, content type and tag parameters and have the status
    asked for, each once and in the order of their ids; every entry of the
    answer is one of them. *)
Theorem list_files_answer
    owner_id status content_type tags limit skip w rs :
  list_files str_of_id owner_id status content_type tags limit skip w
  = Some (Ok rs) →
  ∃ st l s files,
    Query_status status = Some st
    ∧ Query_int 50 1 (Some 1000%Z) limit = Some l
    ∧ Query_int 0 0 None skip = Some s
    ∧ rs = resp <$> cursor_limit l (cursor_skip s files)
    ∧ (∀ id d, (id, d) ∈ files
               ↔ collection w !! id = Some (Some d)
                 ∧ passes owner_id content_type tags d
                 ∧ ∀ v, st = Some v → GridFSFile.status d = v)
    ∧ StronglySorted lt (files.*1)
    ∧ (∀ r, r ∈ rs →
            ∃ id d, (id, d) ∈ files ∧ r = to_response (str_of_id id) d).
Proof.
  unfold list_files. intros E.
  destruct (Query_status status) as [st|]; [|done].
  destruct (Query_int 50 1 (Some 1000%Z) limit) as [l|]; [|done].
  destruct (Query_int 0 0 None skip) as [s|]; [|done].
  destruct (find _ _) as [files|] eqn:Hfind; [|done]. simpl in E.
  simplify_eq. exists st, l, s, files. do 4 (split; [done|]).
  unfold find in Hfind.
  destruct (compile_condition _) as [re|] eqn:Hre; [|done]. simpl in Hfind.
  split; [|split].
  - intros id d. rewrite (find_from_elem _ _ _ _ _ id d Hfind).
    pose proof (doc_matches_passes _ _ _ _ d _ Hre) as Hdm. split.
    + intros (k & -> & Hk & Hm). apply Hdm in Hm as [Hp Hst]. by split.
    + intros (Hk & Hp & Hst). exists id. split; [done|]. split; [done|].
      apply Hdm. by split.
  - by apply (find_from_sorted _ _ _ _ _ Hfind).
  - intros r Hr. apply list_elem_of_fmap in Hr as ([id d] & -> & Hin).
    exists id, d. split; [|done]. unfold cursor_limit, cursor_skip in Hin.
    destruct (l =? 0)%Z.
    + by eapply subseteq_drop.
    + eapply subseteq_drop, subseteq_take. done.
Qed.

(** X13.  A page of [n] documents followed by the next page of [m] documents
    is the page of [n + m] documents at the same offset. *)
Theorem list_files_pages_compose
    owner_id status content_type tags n m s w a b :
  (0 ≤ s)%Z → (1 ≤ n)%Z → (1 ≤ m)%Z → (n + m ≤ 1000)%Z →
  list_files str_of_id owner_id status content_type tags (Some n) (Some s) w
  = Some (Ok a) →
  list_files str_of_id owner_id status content_type tags (Some m)
    (Some (s + n)%Z) w = Some (Ok b) →
  list_files str_of_id owner_id status content_type tags (Some (n + m)%Z)
    (Some s) w = Some (Ok (a ++ b)).
Proof.
  intros Hs Hn Hm Hnm. unfold list_files.
  destruct (Query_status status) as [st|]; [|done]. unfold Query_int.
  rewrite !(proj2 (Z.leb_le _ _)) by lia. simpl.
  destruct (find _ _) as [files|]; [|done]. simpl.
  intros Ea Eb. simplify_eq. do 2 f_equal. rewrite <- fmap_app. f_equal.
  unfold cursor_limit, cursor_skip.
  rewrite !(proj2 (Z.eqb_neq _ _)) by lia.
  rewrite !Z2Nat.inj_add by lia. rewrite <- drop_drop.
  symmetry. apply take_take_drop.
Qed.

(** X14.  [list_files] rejects the request (status 422) exactly when the
    status is not the value of a member of [FileStatus], the limit is outside
    1..1000, or the skip is negative. *)
Theorem list_files_rejects
    owner_id status content_type tags limit skip w :
  list_files str_of_id owner_id status content_type tags limit skip w
  = Some RequestValidationError
  ↔ (∃ v, status = Some v ∧ ∀ s, v ≠ FileStatus_value s)
    ∨ (∃ l, limit = Some l ∧ (l < 1 ∨ 1000 < l)%Z)
    ∨ (∃ s, skip = Some s ∧ (s < 0)%Z).
Proof.
  unfold list_files.
  assert (Query_status status = None
          ↔ ∃ v, status = Some v ∧ ∀ s, v ≠ FileStatus_value s) as Hst.
  { destruct status as [v|]; simpl; [|split; [done|by intros (?&?&?)]].
    destruct (FileStatus_of_value v) as [s|] eqn:E; simpl.
    - apply FileStatus_of_value_Some in E. split; [done|].
      intros (? & ? & Hn). simplify_eq. by destruct (Hn s).
    - split; [|done]. intros _. exists v. split; [done|]. intros s ->.
      by rewrite (proj2 (FileStatus_of_value_Some _ s) eq_refl) in E. }
  assert (Query_int 50 1 (Some 1000%Z) limit = None
          ↔ ∃ l, limit = Some l ∧ (l < 1 ∨ 1000 < l)%Z) as Hl.
  { destruct limit as [l|]; simpl; [|split; [done|by intros (?&?&?)]].
    destruct (Z.leb_spec 1 l), (Z.leb_spec l 1000); simpl; split;
      try done; try (intros _; exists l; split; [done|lia]);
      intros (l' & E & Hb); injection E as <-; lia. }
  assert (Query_int 0 0 None skip = None ↔ ∃ s, skip = Some s ∧ (s < 0)%Z)
    as Hs.
  { destruct skip as [s|]; simpl; [|split; [done|by intros (?&?&?)]].
    destruct (Z.leb_spec 0 s); simpl; split;
      try done; try (intros _; exists s; split; [done|lia]);
      intros (s' & E & Hb); injection E as <-; lia. }
  rewrite <- Hst, <- Hl, <- Hs.
  destruct (Query_status status) as [st|];
    destruct (Query_int 50 1 (Some 1000%Z) limit) as [l|];
    destruct (Query_int 0 0 None skip) as [s|];
    try (destruct (find _ _); simpl);
    (split; [intros E; first [discriminate E|by auto]
            |intros [E|[E|E]]; first [done|discriminate E]]).
Qed.

(** X15.  With a content type parameter made of characters that stand for
    themselves, and ASCII content types in the collection, the listing
    selects exactly the documents whose content type starts with the
    parameter, letters compared without regard to case. *)
Theorem list_files_literal_content_type p limit l skip s w :
  p ≠ [] →
  forallb is_literal p = true →
  (∀ id d, collection w !! id = Some (Some d) →
           forallb is_ascii (GridFSFile.content_type d) = true) →
  Query_int 50 1 (Some 1000%Z) limit = Some l →
  Query_int 0 0 None skip = Some s →
  ∃ files,
    list_files str_of_id None None (Some p) None limit skip w
    = Some (Ok (resp <$> cursor_limit l (cursor_skip s files)))
    ∧ ∀ id d, (id, d) ∈ files
              ↔ collection w !! id = Some (Some d)
                ∧ istartswith (GridFSFile.content_type d) p = true.
Proof.
  intros Hne Hp Ha Hl Hs.
  assert (truthy (Some p) = Some p) as Htr by (by destruct p).
  assert (Regex.compile p
          = Some ((fun c => (Regex.Lit c, Regex.Once)) <$> p)) as Hcomp.
  { unfold Regex.compile. rewrite (tokens_literal p Hp). simpl.
    apply build_literal. }
  set (re := Some ((fun c => (Regex.Lit c, Regex.Once)) <$> p, true)).
  set (q := build_filter_query None None (Some p) None).
  assert (compile_condition (FilterQuery.content_type q) = Some re) as Hre.
  { unfold q, build_filter_query. cbn [FilterQuery.content_type].
    rewrite Htr. unfold compile_condition.
    change (u "^" ++ p) with (94 :: p). cbv beta iota. by rewrite Hcomp. }
  destruct (find_from_defined q re 0 (collection w) Ha) as [files Hfind].
  exists files. split.
  - unfold list_files. rewrite Hl, Hs. simpl. fold q. unfold find.
    rewrite Hre. simpl. by rewrite Hfind.
  - intros id d. rewrite (find_from_elem _ _ _ _ _ id d Hfind). split.
    + intros (k & -> & Hk & Hm). split; [done|].
      unfold doc_matches, re in Hm. rewrite (Ha _ _ Hk) in Hm.
      rewrite match_here_literal in Hm. simpl in Hm. injection Hm as Hm.
      by rewrite andb_true_r in Hm.
    + intros [Hk Hi]. exists id. split; [done|]. split; [done|].
      unfold doc_matches, re. rewrite (Ha _ _ Hk), match_here_literal, Hi.
      done.
Qed.

(** X19.  A listing without a status parameter lists the documents with
    status [deleted] like the others, when its content type parameter is
    made of characters that stand for themselves and the content types of
    the collection are ASCII.  Such a document that passes the owner and tag
    parameters and whose content type starts with the content type
    parameter is one of the documents the answer is cut from by [skip] and
    [limit]; when nothing is skipped and the limit is no less than the size
    of the collection, the answer has an entry with its identifier, the
    status [deleted] and its other fields. *)
Theorem list_files_lists_deleted_records
    owner_id content_type tags limit l skip s w id d :
  Query_int 50 1 (Some 1000%Z) limit = Some l →
  Query_int 0 0 None skip = Some s →
  collection w !! id = Some (Some d) →
  GridFSFile.status d = DELETED →
  (∀ ct, content_type = Some ct → forallb is_literal ct = true) →
  (∀ j dj, collection w !! j = Some (Some dj) →
           forallb is_ascii (GridFSFile.content_type dj) = true) →
  passes_as_prefix owner_id content_type tags d →
  ∃ files rs,
    find (build_filter_query owner_id None content_type tags) (collection w)
    = Some files
    ∧ (id, d) ∈ files
    ∧ list_files str_of_id owner_id None content_type tags limit skip w
      = Some (Ok rs)
    ∧ length rs = length (cursor_limit l (cursor_skip s files))
    ∧ (s = 0%Z → (length (collection w) ≤ Z.to_nat l)%nat →
       ∃ r, r ∈ rs
            ∧ FileListResponse.id r = str_of_id id
            ∧ FileListResponse.status r = DELETED
            ∧ FileListResponse.filename r = GridFSFile.filename d
            ∧ FileListResponse.content_type r = Some (GridFSFile.content_type d)
            ∧ FileListResponse.upload_date r = GridFSFile.upload_date d
            ∧ FileListResponse.file_size r = GridFSFile.file_size d
            ∧ FileListResponse.owner_id r = GridFSFile.owner_id d
            ∧ FileListResponse.tags r = GridFSFile.tags d
            ∧ FileListResponse.description r = GridFSFile.description d).
Proof.
  intros Hl Hs Hd Hst Hlit Ha (Ho & Hc & Ht).
  assert (passes owner_id content_type tags d) as Hp.
  { split; [done|]. split; [|done]. destruct Hc as [|(ct & -> & Hi)]; [by left|].
    right. exists ct. split; [done|].
    rewrite search_literal; [by rewrite Hi|by apply Hlit|by apply (Ha id)]. }
  assert (is_Some (find (build_filter_query owner_id None content_type tags)
                     (collection w))) as Hfind.
  { unfold find.
    assert (is_Some (compile_condition
                       (FilterQuery.content_type
                          (build_filter_query owner_id None content_type tags))))
      as [re ->].
    { unfold build_filter_query. cbn [FilterQuery.content_type].
      destruct (truthy content_type) as [ct|] eqn:Hct; [|by eexists].
      apply truthy_Some in Hct as [-> _]. unfold compile_condition.
      change (u "^" ++ ct) with (94 :: ct). cbv beta iota.
      unfold Regex.compile. rewrite (tokens_literal ct (Hlit ct eq_refl)).
      simpl. rewrite build_literal. by eexists. }
    simpl. by apply find_from_defined. }
  destruct (list_files_selects_passing str_of_id owner_id content_type tags
              limit l skip s w id d Hl Hs Hd Hp Hfind)
    as (files & Hf & Hin & Hlist & Hans).
  exists files, (resp <$> cursor_limit l (cursor_skip s files)).
  split; [done|]. split; [done|]. split; [done|].
  split; [by rewrite length_fmap|]. intros Hs0 Hlen.
  exists (to_response (str_of_id id) d). split; [by apply Hans|].
  split; [done|]. split; [exact Hst|]. by repeat split.
Qed.

End Composition.

(** ** The further properties at concrete requests *)

Lemma ex_oid2_is_fresh : ex_str_of_oid ex_oid2 ∉ file_ids (collection ex_world).
Proof.
  intros Hin. apply list_elem_of_In in Hin. vm_compute in Hin.
  destruct Hin as [Hin|[]]. discriminate Hin.
Defined.

Lemma upload_file_then_get_file_info_witness :
  ∃ r w' info,
    upload_file ex_str_of_oid ex_upload_png (Some (u "bob"))
      (Some (u "pets, dog")) None ex_oid2 1700000001 ex_world = (Ok r, w')
    ∧ get_file_info ex_oid_of_str ex_str_of_id (FileUploadResponse.file_id r) w'
      = Ok info
    ∧ FileListResponse.status info = ACTIVE
    ∧ FileListResponse.tags info = [u "pets"; u "dog"].
Proof.
  destruct (upload_file_then_get_file_info ex_oid_of_str ex_str_of_oid
              ex_str_of_id ex_upload_png (u "image/png") (Some (u "bob"))
              (Some (u "pets, dog")) None ex_oid2 1700000001 ex_world)
    as (r & w' & info & Hu & _ & _ & _ & _ & _ & _ & Hinfo & _ & _ & _ & _ & _
        & Hst & _ & Htags & _);
    [reflexivity|reflexivity|reflexivity|exact ex_oid2_is_fresh|].
  exists r, w', info. split; [exact Hu|]. split; [exact Hinfo|].
  split; [exact Hst|exact Htags].
Defined.

Lemma upload_file_then_get_file_witness :
  ∃ r w' resp,
    upload_file ex_str_of_oid ex_upload_png None None None ex_oid2 1700000001
      ex_world = (Ok r, w')
    ∧ get_file ex_oid_of_str (FileUploadResponse.file_id r) Opened [] w'
      = Ok resp
    ∧ concat (StreamingResponse.body resp) = UploadFile.file ex_upload_png
    ∧ StreamingResponse.media_type resp = JStr (u "image/png").
Proof.
  destruct (upload_file_then_get_file ex_oid_of_str ex_str_of_oid
              ex_upload_png (u "image/png") None None None ex_oid2 1700000001
              ex_world [])
    as (r & w' & cd & Hu & _ & Hok & _);
    [reflexivity|reflexivity|reflexivity|reflexivity|constructor|].
  destruct Hok as (resp & Hget & Hbody & Hmt & _); [reflexivity|].
  exists r, w', resp. split; [exact Hu|]. split; [exact Hget|].
  split; [exact Hbody|exact Hmt].
Defined.

Lemma upload_file_then_list_files_witness :
  ∃ r w' d files,
    upload_file ex_str_of_oid ex_upload_png (Some (u "bob"))
      (Some (u "pets, dog")) None ex_oid2 1700000001 ex_world = (Ok r, w')
    ∧ list_files ex_str_of_id (Some (u "bob")) None None
        (Some (u "pets, dog")) None None w'
      = Some (Ok ((fun '(id, file_doc) => to_response (ex_str_of_id id) file_doc)
                    <$> cursor_limit 50 (cursor_skip 0 files)))
    ∧ last files = Some (1%nat, d).
Proof.
  destruct (upload_file_then_list_files ex_str_of_oid ex_str_of_id
              ex_upload_png (u "image/png") (Some (u "bob"))
              (Some (u "pets, dog")) None ex_oid2 1700000001 None None
              ex_world)
    as (r & w' & d & files & l & s & Hu & _ & Hl & Hs & Hlist & Hlast & _);
    [reflexivity|reflexivity|by eexists|by eexists|].
  injection Hl as <-. injection Hs as <-.
  exists r, w', d, files. split; [exact Hu|]. split; [exact Hlist|exact Hlast].
Defined.

Lemma stream_file_sends_a_prefix_witness :
  (length (stream_file [[1%N]; [2%N]; [3%N]] [false; true; false]) ≤ 2)%nat.
Proof.
  apply (proj2 (stream_file_sends_a_prefix [[1]; [2]; [3]]
                  [false; true; false]) 1%nat).
  reflexivity.
Defined.


Lemma update_file_then_get_file_info_witness :
  ∃ info,
    get_file_info ex_oid_of_str ex_str_of_id ex_fid
      (update_file ex_oid_of_str ex_str_of_id ex_fid
         (UpdateBody.mk (Given (u "flagged")) Absent Absent) ex_world).2
    = Ok info
    ∧ FileListResponse.status info = FLAGGED
    ∧ FileListResponse.tags info = GridFSFile.tags ex_doc
    ∧ FileListResponse.filename info = u "cat.png".
Proof.
  destruct (update_file_then_get_file_info ex_oid_of_str ex_str_of_id ex_fid
              (UpdateBody.mk (Given (u "flagged")) Absent Absent)
              (FileUpdateRequest.mk (Some FLAGGED) None None)
              ex_world 0%nat ex_doc)
    as (info & Hinfo & _ & Hst & Htags & _ & Hn & _); [reflexivity..|].
  exists info. split; [exact Hinfo|]. split; [exact Hst|].
  split; [exact Htags|exact Hn].
Defined.

Lemma soft_delete_twice_witness :
  ∃ r w1 w2,
    delete_file ex_oid_of_str ex_fid false false ex_world = (Ok r, w1)
    ∧ delete_file ex_oid_of_str ex_fid false false w1 = (Ok r, w2)
    ∧ collection w2 = collection w1
    ∧ bucket w2 = bucket ex_world.
Proof.
  apply (soft_delete_twice ex_oid_of_str ex_fid ex_oid ex_world 0%nat ex_doc
           false false); reflexivity.
Defined.

Lemma permanent_delete_then_get_file_witness :
  get_file ex_oid_of_str ex_fid Opened []
    (delete_file ex_oid_of_str ex_fid true false ex_world).2
  = HTTPException 404 (u "File Not Found in GridFS").
Proof.
  apply (permanent_delete_then_get_file ex_oid_of_str ex_fid ex_oid ex_world
           0%nat ex_doc Opened []); reflexivity.
Defined.

Lemma permanent_delete_then_find_witness :
  find (FilterQuery.mk None None None None)
    (collection (delete_file ex_oid_of_str ex_fid true false ex_world).2)
  = Some (filter (fun p => p.1 ≠ 0%nat) [(0%nat, ex_doc)]).
Proof.
  apply (permanent_delete_then_find ex_oid_of_str ex_fid ex_oid ex_world
           0%nat ex_doc false); reflexivity.
Defined.

Lemma handlers_keep_file_ids_distinct_witness :
  NoDup (file_ids (collection
                     (upload_file ex_str_of_oid ex_upload_png None None None
                        ex_oid2 1700000001 ex_world).2)).
Proof.
  apply (handlers_keep_file_ids_distinct ex_oid_of_str ex_str_of_oid
           ex_str_of_id ex_world).
  - apply NoDup_singleton.
  - exact ex_oid2_is_fresh.
Defined.

Lemma ex_world_is_media_typed : media_typed (collection ex_world).
Proof.
  intros [|id] d E; [|destruct id; discriminate E].
  injection E as <-. reflexivity.
Defined.

Lemma handlers_keep_media_typed_witness :
  media_typed (collection
                 (update_file ex_oid_of_str ex_str_of_id ex_fid
                    (UpdateBody.mk Absent (Given [u "z"]) Absent) ex_world).2).
Proof.
  apply (handlers_keep_media_typed ex_oid_of_str ex_str_of_oid ex_str_of_id
           ex_world ex_world_is_media_typed).
Defined.

Lemma list_files_answer_witness :
  ∃ id d, collection ex_world !! id = Some (Some d)
          ∧ GridFSFile.owner_id d = Some (u "alice")
          ∧ to_response (ex_str_of_id 0) ex_doc
            = to_response (ex_str_of_id id) d.
Proof.
  destruct (list_files_answer ex_str_of_id (Some (u "alice")) None None None
              None None ex_world [to_response (ex_str_of_id 0) ex_doc])
    as (st & l & s & files & _ & _ & _ & _ & Hiff & _ & Hin); [reflexivity|].
  destruct (Hin (to_response (ex_str_of_id 0) ex_doc)) as (id & d & Hd & Hr);
    [by left|].
  apply Hiff in Hd as (Hl & (Ho & _) & _). exists id, d.
  split; [exact Hl|]. split; [|exact Hr].
  destruct Ho as [Ho|Ho]; [discriminate Ho|exact Ho].
Defined.

Lemma list_files_pages_compose_witness :
  list_files ex_str_of_id None None None None (Some 2%Z) (Some 0%Z) ex_world
  = Some (Ok ([to_response (ex_str_of_id 0) ex_doc] ++ [])).
Proof.
  apply (list_files_pages_compose ex_str_of_id None None None None 1 1 0
           ex_world); try lia; reflexivity.
Defined.

Lemma list_files_rejects_witness :
  list_files ex_str_of_id None (Some (u "archived")) None None None None
    ex_world = Some RequestValidationError.
Proof.
  apply list_files_rejects. left. exists (u "archived").
  split; [reflexivity|]. intros s. destruct s; discriminate.
Defined.

Lemma list_files_literal_content_type_witness :
  ∃ files,
    list_files ex_str_of_id None None (Some (u "IMAGE/")) None None None
      ex_world
    = Some (Ok ((fun '(id, file_doc) => to_response (ex_str_of_id id) file_doc)
                  <$> cursor_limit 50 (cursor_skip 0 files)))
    ∧ (0%nat, ex_doc) ∈ files.
Proof.
  destruct (list_files_literal_content_type ex_str_of_id (u "IMAGE/") None
              50%Z None 0%Z ex_world) as (files & Hlist & Hiff).
  - discriminate.
  - reflexivity.
  - intros [|id] d E; [|destruct id; discriminate E].
    injection E as <-. reflexivity.
  - reflexivity.
  - reflexivity.
  - exists files. split; [exact Hlist|]. apply Hiff. split; reflexivity.
Defined.

Lemma parse_tags_are_clean_witness :
  u "y" ≠ [] ∧ (comma ∉ u "y")
  ∧ (∃ c, head (u "y") = Some c ∧ is_space c = false)
  ∧ (∃ c, last (u "y") = Some c ∧ is_space c = false).
Proof.
  apply (parse_tags_are_clean (u " x, y ,, ,z") (u "y")).
  apply list_elem_of_In. vm_compute. right. left. reflexivity.
Defined.

Lemma content_disposition_is_ascii_witness :
  forallb is_ascii (u "attachment; filename*=UTF-8''caf%C3%A9.png") = true.
Proof.
  apply (content_disposition_is_ascii ex_cafe). reflexivity.
Defined.

Lemma FileStatus_value_round_trip_witness : DELETED = DELETED.
Proof.
  apply (FileStatus_value_round_trip DELETED DELETED). reflexivity.
Defined.

Lemma list_files_lists_deleted_records_witness :
  ∃ rs r,
    list_files ex_str_of_id (Some (u "alice")) None (Some (u "image/"))
      (Some (u "q, x")) None None ex_world_deleted = Some (Ok rs)
    ∧ r ∈ rs
    ∧ FileListResponse.id r = ex_str_of_id 0
    ∧ FileListResponse.status r = DELETED.
Proof.
  destruct (list_files_lists_deleted_records ex_str_of_id (Some (u "alice"))
              (Some (u "image/")) (Some (u "q, x")) None 50%Z None 0%Z
              ex_world_deleted 0%nat (GridFSFile.set_status DELETED ex_doc))
    as (files & rs & _ & _ & Hlist & _ & Hin); [reflexivity..| | | |].
  - intros ct E. injection E as <-. reflexivity.
  - intros [|j] dj E; [|destruct j; discriminate E].
    injection E as <-. reflexivity.
  - split; [by right|]. split; right.
    + exists (u "image/"). split; reflexivity.
    + exists (u "q, x"). split; [reflexivity|]. right.
      exists (u "x"). split; apply list_elem_of_In; vm_compute; tauto.
  - destruct Hin as (r & Hr & Hid & Hst & _); [reflexivity|vm_compute; lia|].
    exists rs, r. split; [exact Hlist|]. split; [exact Hr|].
    split; [exact Hid|exact Hst].
Defined.
